(** * Organisation report: repositories, last commits and open Dependabot alerts

    A shallow embedding of [github_repo_list_with_dependabot_alerts_csv.py]
    and the properties of its five components: [get_auth_status],
    [last_commit], [getDependencyAlerts], [list_repos] and [main].

    The program is sequential glue around two HTTP interfaces.  The server is
    a value of type [World]: a function from the URL of a REST read to its
    response, and a function from a GraphQL query and its variables to its
    response.  Parsed JSON is the type [json]; Python's dynamic operations on
    it ([x[k]], [k in x], [x.get(k)], truthiness, iteration) are total
    functions into [result], whose [Raised] case carries the exception the
    interpreter would raise.  The two [while] loops take fuel. *)

From Stdlib Require Import ZArith String Ascii List Lia DecimalString.
From stdpp Require Import base option list sorting gmap strings.

Local Open Scope Z_scope.

(** ** Values *)

(** What [json.loads] and [requests]' [.json()] build: [None], [bool], [int],
    [str], [list] and [dict] with string keys.  Numbers are integers (the
    counts and limits of the endpoints read here); a string is the UTF-8
    encoding of its text, on which the byte-wise order is the order of the
    code points and a substring of bytes a substring of characters. *)
#[warnings="-register-all"]
Inductive json : Type :=
  | JNull
  | JBool (b : bool)
  | JNum (z : Z)
  | JStr (s : string)
  | JArr (l : list json)
  | JObj (m : gmap string json).

(** The exceptions the program can meet.  [Exception] is raised by the
    program itself, once with the parsed response as its argument and twice
    with a message. *)
Inductive exn : Type :=
  | KeyError
  | IndexError
  | TypeError
  | AttributeError
  | JSONDecodeError
  | Exception_content (content : json)
  | Exception_msg (msg : string).

(** Outcome of running a piece of the program: a value, an uncaught
    exception, a loop that used up its fuel, or an operation of the
    interpreter this development does not describe. *)
Inductive result (A : Type) : Type :=
  | Ok (a : A)
  | Raised (e : exn)
  | OutOfFuel
  | Unmodelled.
Arguments Ok {A} a.
Arguments Raised {A} e.
Arguments OutOfFuel {A}.
Arguments Unmodelled {A}.

#[global] Instance result_ret : MRet result := @Ok.
#[global] Instance result_bind : MBind result := fun A B f r =>
  match r with
  | Ok a => f a
  | Raised e => Raised e
  | OutOfFuel => OutOfFuel
  | Unmodelled => Unmodelled
  end.

(** ** Strings *)

(** [s.startswith(p)] *)
Fixpoint startswith (p s : string) : bool :=
  match p, s with
  | EmptyString, _ => true
  | String a p', String b s' => if Ascii.eqb a b then startswith p' s' else false
  | String _ _, EmptyString => false
  end.

(** [sub in s] for two strings: [sub] starts at some position of [s]. *)
Fixpoint contains (sub s : string) : bool :=
  startswith sub s ||
  match s with
  | EmptyString => false
  | String _ s' => contains sub s'
  end.

(** [sub] occurs in [s], as a proposition. *)
Definition substring (sub s : string) : Prop :=
  exists pre post : string, s = pre +:+ sub +:+ post.

(** A byte [10xxxxxx], which continues a character of UTF-8 text. *)
Definition is_continuation (a : ascii) : bool :=
  match a with
  | Ascii _ _ _ _ _ _ b6 b7 => b7 && negb b6
  end.

(** The string goes on with a continuation byte. *)
Definition continues (s : string) : bool :=
  match s with
  | String b _ => is_continuation b
  | EmptyString => false
  end.

(** The characters of a string, each as a string of its own: a byte
    opens a character unless it continues one. *)
Fixpoint utf8_chars (s : string) : list string :=
  match s with
  | EmptyString => []
  | String a s' =>
      match utf8_chars s' with
      | c :: cs =>
          if continues s' then String a c :: cs else String a "" :: c :: cs
      | [] => [String a ""]
      end
  end.

(** [str(n)] for an [int]. *)
Definition str_int (n : Z) : string := NilZero.string_of_int (Z.to_int n).

(** ** Python's operations on parsed JSON *)

(** Truth value, as tested by [if x] and [not x]. *)
Definition truthy (x : json) : bool :=
  match x with
  | JNull => false
  | JBool b => b
  | JNum z => negb (z =? 0)
  | JStr s => negb (String.eqb s "")
  | JArr l => match l with [] => false | _ :: _ => true end
  | JObj m => negb (bool_decide (m = ∅))
  end.

(** [x[k]] for a string key [k]. *)
Definition getitem (x : json) (k : string) : result json :=
  match x with
  | JObj m => match m !! k with Some v => Ok v | None => Raised KeyError end
  | _ => Raised TypeError
  end.

(** [x[0]].  A [dict] built from JSON has string keys only, so the integer
    key is missing from it. *)
Definition getitem0 (x : json) : result json :=
  match x with
  | JArr l => match l with v :: _ => Ok v | [] => Raised IndexError end
  | JStr s => match utf8_chars s with c :: _ => Ok (JStr c) | [] => Raised IndexError end
  | JObj _ => Raised KeyError
  | _ => Raised TypeError
  end.

(** [x == s] for a string literal [s]. *)
Definition eq_str (x : json) (s : string) : bool :=
  match x with
  | JStr t => String.eqb t s
  | _ => false
  end.

(** [n == x] for an [int] [n]; [bool] is a subclass of [int]. *)
Definition eq_int (n : Z) (x : json) : bool :=
  match x with
  | JNum z => n =? z
  | JBool b => n =? (if b then 1 else 0)
  | _ => false
  end.

(** [k in x] for a string [k]: substring of a [str], element of a [list],
    key of a [dict]. *)
Definition py_in (k : string) (x : json) : result bool :=
  match x with
  | JStr s => Ok (contains k s)
  | JArr l => Ok (existsb (fun v => eq_str v k) l)
  | JObj m => Ok (bool_decide (is_Some (m !! k)))
  | _ => Raised TypeError
  end.

(** [x.get(k)]: only a [dict] has the method. *)
Definition py_get (x : json) (k : string) : result json :=
  match x with
  | JObj m => Ok (default JNull (m !! k))
  | _ => Raised AttributeError
  end.

(** [x.startswith(p)]: only a [str] has the method. *)
Definition py_startswith (x : json) (p : string) : result bool :=
  match x with
  | JStr s => Ok (startswith p s)
  | _ => Raised AttributeError
  end.

(** The elements [for item in x] and [list.extend(x)] go through: the
    elements of a [list], the keys of a [dict], the characters of a [str].
    The keys of a [dict] come in the order of the map; they are strings, on
    which both loops of the program raise at the first one, so the order is
    not observed. *)
Definition py_iter (x : json) : result (list json) :=
  match x with
  | JArr l => Ok l
  | JObj m => Ok (JStr <$> (map_to_list m).*1)
  | JStr s => Ok (JStr <$> utf8_chars s)
  | _ => Raised TypeError
  end.

(** [s + x] for a [str] [s] needs a [str] on the right. *)
Definition as_str (x : json) : result string :=
  match x with
  | JStr s => Ok s
  | _ => Raised TypeError
  end.

(** [a < b], the comparison [sorted] uses.  Strings are ordered
    lexicographically, integers (and booleans, as integers) numerically;
    [None], a [dict] and operands of different kinds raise.  Python orders two
    lists as well, which is not described here. *)
Definition py_lt (a b : json) : result bool :=
  match a, b with
  | JStr s, JStr t => Ok (String.ltb s t)
  | JNum x, JNum y => Ok (x <? y)
  | JNum x, JBool c => Ok (x <? (if c then 1 else 0))
  | JBool c, JNum y => Ok ((if c then 1 else 0) <? y)
  | JBool c, JBool d => Ok ((if c then 1 else 0) <? (if d then 1 else 0))
  | JArr _, JArr _ => Unmodelled
  | _, _ => Raised TypeError
  end.

(** ** The server *)

(** A response of [requests.get]: its body, parsed ([None] when the body is
    not JSON, on which [json.loads] raises), and the URL of the [next] entry
    of its [Link] header, when there is one. *)
Record Response : Type := mkResponse {
  content : option json;
  links_next : option string
}.

(** The [variables] of the alert query. *)
Record Variables : Type := mkVariables {
  repo_owner : string;
  repo_name : string;
  after : json
}.

(** A response of [requests.post] on the GraphQL endpoint. *)
Record GqlResponse : Type := mkGqlResponse {
  status_code : Z;
  body : option json
}.

(** The configuration read from the environment and the two HTTP
    interfaces. *)
Record World : Type := mkWorld {
  GH_ORGNAME : string;
  rest_call : string -> Response;
  post_graphql : string -> Variables -> GqlResponse
}.

(** [json.loads(response.content)] *)
Definition json_loads (r : Response) : result json :=
  match content r with
  | Some c => Ok c
  | None => Raised JSONDecodeError
  end.

(** [request.json()] *)
Definition request_json (r : GqlResponse) : result json :=
  match body r with
  | Some c => Ok c
  | None => Raised JSONDecodeError
  end.

(** ** The program *)

(** A repository record, the 6-tuple [list_repos] appends:
    [(repo, commit_date, high, critical, email, author)]. *)
Definition RepoRecord : Type := string * json * nat * nat * json * json.

(** [r[1]], the key [main] sorts by. *)
Definition item1 (r : RepoRecord) : json :=
  let '(_, commit_date, _, _, _, _) := r in commit_date.

(** [r[2]] and [r[3]]. *)
Definition item2 (r : RepoRecord) : nat :=
  let '(_, _, c, _, _, _) := r in c.
Definition item3 (r : RepoRecord) : nat :=
  let '(_, _, _, c, _, _) := r in c.

(** What [get_auth_status] prints. *)
Inductive auth_message : Type :=
  | NotAuthenticated
  | SuccessfullyAuthenticated
  | NoMessage.

(** The text of the alert query. *)
Definition query : string := " 
            query($repo_owner: String!, $repo_name: String!, $after: String )  { 
                repository(owner: $repo_owner , name: $repo_name ) {
                    vulnerabilityAlerts(first:100, after: $after ) {
                        totalCount
                        nodes {
                            id
                            createdAt
                            dismissReason
                            dismissedAt
                            dismisser{
                                login
                            }
                            fixedAt

                            securityAdvisory{
                            severity
                            }
                        }
                        pageInfo{
                            hasNextPage
                            endCursor
                        }
                    }
                }
    }
    ".

Definition empty_repo_message : string := "Git Repository is empty.".
Definition count_mismatch_message : string := "graphql call not functioning properly,".

(** The message of the exception [run_query] raises. *)
Definition query_failed_message (code : Z) (q : string) : string :=
  "Query failed to run by returning code of " +:+ str_int code +:+ ". " +:+ q.

(** The body of the [try] of [last_commit]. *)
Definition commit_fields (content : json) : result (json * json * json) :=
  c0 ← getitem0 content;
  c1 ← getitem c0 "commit";
  c2 ← getitem c1 "committer";
  commit_date ← getitem c2 "date";
  e0 ← getitem0 content;
  e1 ← getitem e0 "commit";
  e2 ← getitem e1 "author";
  email ← getitem e2 "email";
  is_github ← py_in "github" email;
  let email := if is_github : bool then JStr "none" else email in
  a0 ← getitem0 content;
  a1 ← getitem a0 "commit";
  a2 ← getitem a1 "author";
  author ← getitem a2 "name";
  Ok (commit_date, email, author).

(** [a and b], with [b] evaluated only when [a] is true. *)
Definition py_and (a : result bool) (b : result bool) : result bool :=
  x ← a; if x : bool then b else Ok false.

(** ["message" in content and content["message"] == s] *)
Definition message_is (content : json) (s : string) : result bool :=
  py_and (py_in "message" content)
         (m ← getitem content "message"; Ok (eq_str m s)).

(** ["message" in content and content["message"].startswith(p)] *)
Definition message_startswith (content : json) (p : string) : result bool :=
  py_and (py_in "message" content)
         (m ← getitem content "message"; py_startswith m p).

(** One pass of the counting loop of [getDependencyAlerts]. *)
Definition count_alert (acc : nat * nat) (alert : json) : result (nat * nat) :=
  let '(critical, high) := acc in
  dismissedAt ← py_get alert "dismissedAt";
  if truthy dismissedAt then Ok acc else
  fixedAt ← py_get alert "fixedAt";
  if truthy fixedAt then Ok acc else
  dismisser ← py_get alert "dismisser";
  if truthy dismisser then Ok acc else
  s0 ← getitem alert "securityAdvisory";
  s1 ← getitem s0 "severity";
  if eq_str s1 "CRITICAL" then Ok (S critical, high) else
  t0 ← getitem alert "securityAdvisory";
  t1 ← getitem t0 "severity";
  if eq_str t1 "HIGH" then Ok (critical, S high) else Ok acc.

(** The counting loop, from counters [acc]. *)
Fixpoint count_alerts (acc : nat * nat) (alerts : list json) : result (nat * nat) :=
  match alerts with
  | [] => Ok acc
  | alert :: rest => acc' ← count_alert acc alert; count_alerts acc' rest
  end.

(** [sorted(l, key=lambda r: r[1], reverse=True)]: the stable arrangement
    by descending key.  [insert_desc r l] puts [r], which stood before every
    element of [l], in front of the first element whose key is not greater
    than its own. *)
Fixpoint insert_desc (r : RepoRecord) (l : list RepoRecord) : result (list RepoRecord) :=
  match l with
  | [] => Ok [r]
  | x :: l' =>
      lt ← py_lt (item1 r) (item1 x);
      if lt : bool then l'' ← insert_desc r l'; Ok (x :: l'') else Ok (r :: x :: l')
  end.

Fixpoint sorted_desc (l : list RepoRecord) : result (list RepoRecord) :=
  match l with
  | [] => Ok []
  | r :: l' => s ← sorted_desc l'; insert_desc r s
  end.

Section Program.

Variable w : World.

(** [get_auth_status]: one read of the rate limit and a message for two
    known limits.  The four second pause is not modelled. *)
Definition get_auth_status : result auth_message :=
  let response := rest_call w "https://api.github.com/rate_limit" in
  content ← json_loads response;
  r0 ← getitem content "rate";
  my_rate ← getitem r0 "limit";
  r1 ← getitem content "rate";
  rate_remaining ← getitem r1 "remaining";
  if eq_int 60 my_rate then Ok NotAuthenticated
  else if eq_int 5000 my_rate then Ok SuccessfullyAuthenticated
  else Ok NoMessage.

Definition commits_url (repo : string) : string :=
  "https://api.github.com/repos/" +:+ GH_ORGNAME w +:+ "/" +:+ repo +:+ "/commits".

(** [last_commit]: only a [KeyError] of the [try] body is caught; the
    handler returns the sentinel on the empty repository message and
    otherwise falls through to [raise Exception(content)]. *)
Definition last_commit (repo : string) : result (json * json * json) :=
  let response := rest_call w (commits_url repo) in
  content ← json_loads response;
  match commit_fields content with
  | Raised KeyError =>
      is_empty ← message_is content empty_repo_message;
      if is_empty : bool then Ok (JStr "<empty_repo>", JStr "", JStr "")
      else Raised (Exception_content content)
  | r => r
  end.

(** [run_query] *)
Definition run_query (q : string) (variables : Variables) : result json :=
  let request := post_graphql w q variables in
  if status_code request =? 200 then
    j ← request_json request; getitem j "data"
  else Raised (Exception_msg (query_failed_message (status_code request) q)).

(** The [while True] loop of [getDependencyAlerts]: from the cursor
    [cursor] and the alerts accumulated so far, the last [totalCount] read
    and all the alerts. *)
Fixpoint alert_pages (fuel : nat) (owner name : string) (cursor : json)
    (alerts : list json) : result (json * list json) :=
  match fuel with
  | O => OutOfFuel
  | S fuel' =>
      d ← run_query query (mkVariables owner name cursor);
      r ← getitem d "repository";
      data ← getitem r "vulnerabilityAlerts";
      totalCount ← getitem data "totalCount";
      n ← getitem data "nodes";
      nodes ← py_iter n;
      let alerts := alerts ++ nodes in
      p ← getitem data "pageInfo";
      hasNextPage ← getitem p "hasNextPage";
      if truthy hasNextPage then
        p' ← getitem data "pageInfo";
        endCursor ← getitem p' "endCursor";
        alert_pages fuel' owner name endCursor alerts
      else Ok (totalCount, alerts)
  end.

(** What follows the loop: the count check, then the counting. *)
Definition check_and_count (totalCount : json) (alerts : list json) : result (nat * nat) :=
  if negb (eq_int (Z.of_nat (length alerts)) totalCount)
  then Raised (Exception_msg count_mismatch_message)
  else count_alerts (0%nat, 0%nat) alerts.

(** [getDependencyAlerts]; the pair returned is [(critical, high)]. *)
Definition getDependencyAlerts (fuel : nat) (owner name : string) : result (nat * nat) :=
  '(totalCount, alerts) ← alert_pages fuel owner name JNull [];
  check_and_count totalCount alerts.

(** One pass of the [for item in content] loop of [list_repos]. *)
Definition repo_record (fuel : nat) (item : json) : result RepoRecord :=
  n ← getitem item "name";
  repo ← as_str n;
  '(commit_date, email, author) ← last_commit repo;
  '(high, critical) ← getDependencyAlerts fuel (GH_ORGNAME w) repo;
  Ok (repo, commit_date, high, critical, email, author).

Fixpoint repo_records (fuel : nat) (items : list json) (repos : list RepoRecord)
    : result (list RepoRecord) :=
  match items with
  | [] => Ok repos
  | item :: rest =>
      r ← repo_record fuel item;
      repo_records fuel rest (repos ++ [r])
  end.

(** The [while url is not None] loop of [list_repos].  [pages] bounds the
    pages of the repository list, [fuel] the pages of each alert query. *)
Fixpoint repo_pages (pages fuel : nat) (url : string) (repos : list RepoRecord)
    : result (list RepoRecord) :=
  match pages with
  | O => OutOfFuel
  | S pages' =>
      let response := rest_call w url in
      content ← json_loads response;
      limited ← message_startswith content "API rate limit exceeded";
      if limited : bool then Ok repos else
      missing ← message_is content "Not Found";
      if missing : bool then Ok repos else
      items ← py_iter content;
      repos' ← repo_records fuel items repos;
      match links_next response with
      | Some next => repo_pages pages' fuel next repos'
      | None => Ok repos'
      end
  end.

Definition repos_url : string :=
  "https://api.github.com/orgs/" +:+ GH_ORGNAME w +:+ "/repos".

(** [list_repos] *)
Definition list_repos (pages fuel : nat) : result (list RepoRecord) :=
  repo_pages pages fuel repos_url [].

(** [main]: the value is [repos_sorted], which is printed whole and then
    one comma-joined line per record, in this order. *)
Definition main (pages fuel : nat) : result (list RepoRecord) :=
  _ ← get_auth_status;
  repos_data ← list_repos pages fuel;
  sorted_desc repos_data.

End Program.

(** ** Notions the properties are stated with *)

(** An outcome of straight-line code: a value or an exception. *)
Definition settled {A : Type} (r : result A) : Prop :=
  match r with
  | Ok _ | Raised _ => True
  | OutOfFuel | Unmodelled => False
  end.

(** An outcome that is not an [Exception] raised with a message. *)
Definition no_message {A : Type} (r : result A) : Prop :=
  forall msg : string, r <> Raised (Exception_msg msg).

(** An outcome whose exception, if any, is one the interpreter raises on a
    subscript or a membership test. *)
Definition subscript_error {A : Type} (r : result A) : Prop :=
  forall e : exn, r = Raised e -> e = KeyError \/ e = IndexError \/ e = TypeError.

(** [x[k1][k2]...] *)
Definition get_path (x : json) (ks : list string) : result json :=
  foldl (fun r k => y ← r; getitem y k) (Ok x) ks.

(** The response of the commit list has the fields [last_commit] reads:
    a first element with [commit.committer.date], [commit.author.email] and
    [commit.author.name]. *)
Definition has_commit_fields (content : json) : Prop :=
  exists c d e a : json,
    getitem0 content = Ok c /\
    get_path c ["commit"; "committer"; "date"]%string = Ok d /\
    get_path c ["commit"; "author"; "email"]%string = Ok e /\
    get_path c ["commit"; "author"; "name"]%string = Ok a.

(** The response is an object whose [message] is [s]. *)
Definition has_message (content : json) (s : string) : Prop :=
  exists m : gmap string json, content = JObj m /\ m !! "message"%string = Some (JStr s).

(** A vulnerability alert, with the fields the query asks for.  [dismisser]
    is the login of the user who dismissed it. *)
Record Alert : Type := mkAlert {
  id : string;
  createdAt : string;
  dismissReason : option string;
  dismissedAt : option string;
  dismisser : option string;
  fixedAt : option string;
  severity : string
}.

Definition json_of_option (o : option string) : json :=
  match o with
  | Some s => JStr s
  | None => JNull
  end.

(** The node of the response that stands for an alert. *)
Definition alert_node (a : Alert) : json :=
  JObj (<["id"%string := JStr (id a)]>
       (<["createdAt"%string := JStr (createdAt a)]>
       (<["dismissReason"%string := json_of_option (dismissReason a)]>
       (<["dismissedAt"%string := json_of_option (dismissedAt a)]>
       (<["dismisser"%string :=
            match dismisser a with
            | Some login => JObj (<["login"%string := JStr login]> ∅)
            | None => JNull
            end]>
       (<["fixedAt"%string := json_of_option (fixedAt a)]>
       (<["securityAdvisory"%string :=
            JObj (<["severity"%string := JStr (severity a)]> ∅)]> ∅))))))).

(** An alert is open: no dismissal timestamp, no fix timestamp, no
    dismisser. *)
Definition is_open (a : Alert) : Prop :=
  dismissedAt a = None /\ fixedAt a = None /\ dismisser a = None.

(** A timestamp is not the empty string. *)
Definition timestamps_ok (a : Alert) : Prop :=
  dismissedAt a <> Some ""%string /\ fixedAt a <> Some ""%string.

(** An alert counts toward the severity [sev]: it is open and its severity
    label is [sev]. *)
Definition counts_toward (sev : string) (a : Alert) : Prop :=
  is_open a /\ severity a = sev.

#[global] Instance is_open_dec (a : Alert) : Decision (is_open a).
Proof. unfold is_open. apply _. Defined.

#[global] Instance counts_toward_dec (sev : string) (a : Alert) :
  Decision (counts_toward sev a).
Proof. unfold counts_toward. apply _. Defined.

(** A page of alerts as the loop of [getDependencyAlerts] reads it: the
    declared total, the nodes, and the cursor of the next page when
    [hasNextPage] holds. *)
Record AlertPage : Type := mkAlertPage {
  page_total : json;
  page_nodes : list json;
  page_next : option json
}.

(** What one page of the repository list does to the loop of [list_repos]. *)
Inductive page_outcome : Type :=
  | Stop
  | Page (records : list RepoRecord) (next : option string).

(** The key of a record is the string [s]. *)
Definition date_is (r : RepoRecord) (s : string) : Prop := item1 r = JStr s.

(** Descending order of two records by their commit date strings. *)
Definition date_ge (a b : RepoRecord) : Prop :=
  match item1 a, item1 b with
  | JStr s, JStr t => String.ltb s t = false
  | _, _ => False
  end.

Definition is_digit (c : ascii) : Prop :=
  (48 <= nat_of_ascii c <= 57)%nat.

Section Chains.

Variable w : World.

(** One page of alerts read at [cursor]. *)
Definition read_alert_page (owner name : string) (cursor : json) : result AlertPage :=
  d ← run_query w query (mkVariables owner name cursor);
  r ← getitem d "repository";
  data ← getitem r "vulnerabilityAlerts";
  totalCount ← getitem data "totalCount";
  n ← getitem data "nodes";
  nodes ← py_iter n;
  p ← getitem data "pageInfo";
  hasNextPage ← getitem p "hasNextPage";
  if truthy hasNextPage then
    p' ← getitem data "pageInfo";
    endCursor ← getitem p' "endCursor";
    Ok (mkAlertPage totalCount nodes (Some endCursor))
  else Ok (mkAlertPage totalCount nodes None).

(** [alert_chain owner name c ps c']: from cursor [c] the server returns
    the pages [ps], each announcing a next page, the last one at cursor
    [c']. *)
Inductive alert_chain (owner name : string) : json -> list AlertPage -> json -> Prop :=
  | alert_chain_nil c : alert_chain owner name c [] c
  | alert_chain_cons c p c' ps c'' :
      read_alert_page owner name c = Ok p ->
      page_next p = Some c' ->
      alert_chain owner name c' ps c'' ->
      alert_chain owner name c (p :: ps) c''.

(** One page of the repository list read at [url]. *)
Definition read_repo_page (fuel : nat) (url : string) : result page_outcome :=
  let response := rest_call w url in
  content ← json_loads response;
  limited ← message_startswith content "API rate limit exceeded";
  if limited : bool then Ok Stop else
  missing ← message_is content "Not Found";
  if missing : bool then Ok Stop else
  items ← py_iter content;
  records ← repo_records w fuel items [];
  Ok (Page records (links_next response)).

(** [repo_chain fuel url pages url']: from [url] the server returns pages
    that are processed to the lists of records [pages], each with a [next]
    link, the last one to [url']. *)
Inductive repo_chain (fuel : nat) : string -> list (list RepoRecord) -> string -> Prop :=
  | repo_chain_nil url : repo_chain fuel url [] url
  | repo_chain_cons url records next pages url' :
      read_repo_page fuel url = Ok (Page records (Some next)) ->
      repo_chain fuel next pages url' ->
      repo_chain fuel url (records :: pages) url'.

End Chains.

(** ** A server to run the program against *)

Module Acme.

Local Open Scope string_scope.

Definition obj (fields : list (string * json)) : json :=
  JObj (list_to_map fields).

Definition commit (date email name : string) : json :=
  obj [("sha", JStr "0a1b2c");
       ("commit",
        obj [("committer", obj [("date", JStr date)]);
             ("author", obj [("email", JStr email); ("name", JStr name)])])].

Definition rate (limit remaining : Z) : json :=
  obj [("rate", obj [("limit", JNum limit); ("remaining", JNum remaining)])].

Definition alerts_page (total : Z) (nodes : list json) (cursor : option string) : json :=
  obj [("data",
    obj [("repository",
      obj [("vulnerabilityAlerts",
        obj [("totalCount", JNum total);
             ("nodes", JArr nodes);
             ("pageInfo",
              obj [("hasNextPage", JBool (bool_decide (is_Some cursor)));
                   ("endCursor", json_of_option cursor)])])])])].

Definition open_critical : Alert :=
  mkAlert "RVA_1" "2024-05-01T08:00:00Z" None None None None "CRITICAL".
Definition dismissed_high : Alert :=
  mkAlert "RVA_2" "2024-05-02T08:00:00Z" (Some "TOLERABLE_RISK")
          (Some "2024-05-03T09:30:00Z") (Some "octocat") None "HIGH".
Definition fixed_critical : Alert :=
  mkAlert "RVA_3" "2024-04-02T08:00:00Z" None None None
          (Some "2024-04-09T12:00:00Z") "CRITICAL".
Definition open_high : Alert :=
  mkAlert "RVA_4" "2024-05-04T08:00:00Z" None None None None "HIGH".
Definition open_moderate : Alert :=
  mkAlert "RVA_5" "2024-05-05T08:00:00Z" None None None None "MODERATE".

Definition page2_url : string := "https://api.github.com/organizations/7/repos?page=2".

Definition rate_limit_body : json :=
  obj [("message", JStr "API rate limit exceeded for user ID 7.");
       ("documentation_url", JStr "https://docs.github.com/rest")].

Definition not_found_body : json :=
  obj [("message", JStr "Not Found")].

(** The REST side: repositories [A] and [B] on the first page, the body
    [page2] on the second; [A] has one commit, [B] is empty, [C] was last
    committed to through the web interface. *)
Definition rest (page2 : json) (url : string) : Response :=
  if String.eqb url "https://api.github.com/rate_limit" then
    mkResponse (Some (rate 5000 4990)) None
  else if String.eqb url "https://api.github.com/orgs/acme/repos" then
    mkResponse (Some (JArr [obj [("name", JStr "A")]; obj [("name", JStr "B")]]))
               (Some page2_url)
  else if String.eqb url page2_url then
    mkResponse (Some page2) None
  else if String.eqb url "https://api.github.com/repos/acme/A/commits" then
    mkResponse (Some (JArr [commit "2024-06-01T10:00:00Z" "dev@example.com" "Dev"])) None
  else if String.eqb url "https://api.github.com/repos/acme/B/commits" then
    mkResponse (Some (obj [("message", JStr "Git Repository is empty.")])) None
  else if String.eqb url "https://api.github.com/repos/acme/C/commits" then
    mkResponse (Some (JArr [commit "2023-01-01T00:00:00Z" "noreply@github.com" "GitHub"])) None
  else if String.eqb url "https://api.github.com/repos/acme/D/commits" then
    mkResponse (Some (JArr [])) None
  else mkResponse (Some not_found_body) None.

(** The GraphQL side: [A] has two pages of alerts, one open CRITICAL and
    one dismissed HIGH; [M] declares three alerts and sends one; every
    other repository has none. *)
Definition graphql (q : string) (v : Variables) : GqlResponse :=
  if String.eqb (repo_name v) "A" then
    match after v with
    | JNull => mkGqlResponse 200 (Some (alerts_page 2 [alert_node open_critical] (Some "Y3Vyc29yOjE=")))
    | _ => mkGqlResponse 200 (Some (alerts_page 2 [alert_node dismissed_high] None))
    end
  else if String.eqb (repo_name v) "M" then
    mkGqlResponse 200 (Some (alerts_page 3 [alert_node open_high] None))
  else mkGqlResponse 200 (Some (alerts_page 0 [] None)).

(** The organisation with a third repository on the second page. *)
Definition world : World :=
  mkWorld "acme" (rest (JArr [obj [("name", JStr "C")]])) graphql.

(** The same organisation when the second page hits the rate limit. *)
Definition limited : World :=
  mkWorld "acme" (rest rate_limit_body) graphql.


Definition cursor1 : json := JStr "Y3Vyc29yOjE=".
Definition page1_A : AlertPage :=
  mkAlertPage (JNum 2) [alert_node open_critical] (Some cursor1).
Definition page2_A : AlertPage :=
  mkAlertPage (JNum 2) [alert_node dismissed_high] None.


(** The same organisation when the nodes of a page are a string of one
    character, with a declared total of one. *)
Definition string_nodes_body : json :=
  obj [("data",
    obj [("repository",
      obj [("vulnerabilityAlerts",
        obj [("totalCount", JNum 1);
             ("nodes", JStr "é");
             ("pageInfo", obj [("hasNextPage", JBool false); ("endCursor", JNull)])])])])].
Definition string_nodes : World :=
  mkWorld "acme" (rest (JArr [])) (fun _ _ => mkGqlResponse 200 (Some string_nodes_body)).

Definition record_A : RepoRecord :=
  ("A", JStr "2024-06-01T10:00:00Z", 1%nat, 0%nat, JStr "dev@example.com", JStr "Dev").
Definition record_B : RepoRecord :=
  ("B", JStr "<empty_repo>", 0%nat, 0%nat, JStr "", JStr "").
Definition record_C : RepoRecord :=
  ("C", JStr "2023-01-01T00:00:00Z", 0%nat, 0%nat, JStr "none", JStr "GitHub").

End Acme.

(** ** Notions for the further properties *)

#[global] Instance date_is_dec (r : RepoRecord) (s : string) : Decision (date_is r s).
Proof.
  unfold date_is. destruct (item1 r) as [| | |t| |]; try (right; discriminate).
  destruct (decide (t = s)) as [->|Hne]; [by left|right]. congruence.
Defined.

(** [r[0]], the name of the repository. *)
Definition item0 (r : RepoRecord) : string :=
  let '(repo, _, _, _, _, _) := r in repo.

(** The three fields that close an alert. *)
Definition closing_fields : list string :=
  ["dismissedAt"; "fixedAt"; "dismisser"]%string.

(** The value [alert.get(k)] of an object is true. *)
Definition field_set (m : gmap string json) (k : string) : bool :=
  truthy (default JNull (m !! k)).

(** An alert object with none of the closing fields set. *)
Definition open_object (m : gmap string json) : Prop :=
  Forall (fun k => field_set m k = false) closing_fields.

(** The body of a page of the repository list neither is one of the two
    messages [list_repos] stops at, nor has a [message] that is not a
    string. *)
Definition no_stop_message (m : gmap string json) : Prop :=
  m !! "message"%string = None \/
  exists s : string,
    m !! "message"%string = Some (JStr s) /\
    startswith "API rate limit exceeded" s = false /\
    s <> "Not Found"%string.

(** Servers that misbehave. *)
Module Faulty.

Local Open Scope string_scope.

Definition bad_credentials_body : json :=
  Acme.obj [("message", JStr "Bad credentials");
            ("documentation_url", JStr "https://docs.github.com/rest")].

(** Every REST read is refused. *)
Definition bad_credentials : World :=
  mkWorld "acme" (fun _ => mkResponse (Some bad_credentials_body) None) Acme.graphql.

Definition commit_null_email : json :=
  Acme.obj [("commit",
    Acme.obj [("committer", Acme.obj [("date", JStr "2022-03-04T05:06:07Z")]);
              ("author", Acme.obj [("email", JNull); ("name", JStr "Ghost")])])].

(** The last commit of every repository has no author email. *)
Definition null_email : World :=
  mkWorld "acme" (fun _ => mkResponse (Some (JArr [commit_null_email])) None) Acme.graphql.

(** The first page lists [A] and then [D], whose commit list is empty. *)
Definition rest_A_D (url : string) : Response :=
  if String.eqb url "https://api.github.com/orgs/acme/repos" then
    mkResponse (Some (JArr [Acme.obj [("name", JStr "A")]; Acme.obj [("name", JStr "D")];
                            Acme.obj [("name", JStr "B")]])) None
  else Acme.rest (JArr []) url.

Definition broken_repo : World := mkWorld "acme" rest_A_D Acme.graphql.

(** The [next] link of the repository list leads back to the list. *)
Definition rest_cycle (url : string) : Response :=
  if String.eqb url "https://api.github.com/orgs/acme/repos" then
    mkResponse (Some (JArr [Acme.obj [("name", JStr "B")]]))
               (Some "https://api.github.com/orgs/acme/repos")
  else Acme.rest (JArr []) url.

Definition link_cycle : World := mkWorld "acme" rest_cycle Acme.graphql.

(** Every page of alerts announces a next page. *)
Definition endless_alerts : World :=
  mkWorld "acme" (Acme.rest (JArr []))
    (fun _ _ => mkGqlResponse 200 (Some (Acme.alerts_page 1 [alert_node Acme.open_high] (Some "bmV4dA==")))).

(** The repository of the alert query is [null]. *)
Definition null_repository : World :=
  mkWorld "acme" (Acme.rest (JArr []))
    (fun _ _ => mkGqlResponse 200
       (Some (Acme.obj [("data", Acme.obj [("repository", JNull)])]))).

Definition orphan_alert : json :=
  Acme.obj [("id", JStr "RVA_9"); ("dismissedAt", JNull)].

Definition closed_orphan_alert : json :=
  Acme.obj [("id", JStr "RVA_8"); ("fixedAt", JStr "2024-01-01T00:00:00Z")].

(** Two empty repositories, [T1] listed before [T2]. *)
Definition rest_twins (url : string) : Response :=
  if String.eqb url "https://api.github.com/rate_limit" then
    mkResponse (Some (Acme.rate 60 58)) None
  else if String.eqb url "https://api.github.com/orgs/acme/repos" then
    mkResponse (Some (JArr [Acme.obj [("name", JStr "T1")]; Acme.obj [("name", JStr "A")];
                            Acme.obj [("name", JStr "T2")]])) None
  else if String.eqb url "https://api.github.com/repos/acme/A/commits" then
    Acme.rest (JArr []) url
  else mkResponse (Some (Acme.obj [("message", JStr "Git Repository is empty.")])) None.

Definition twins : World := mkWorld "acme" rest_twins Acme.graphql.

Definition record_T1 : RepoRecord :=
  ("T1", JStr "<empty_repo>", 0%nat, 0%nat, JStr "", JStr "").
Definition record_T2 : RepoRecord :=
  ("T2", JStr "<empty_repo>", 0%nat, 0%nat, JStr "", JStr "").

End Faulty.

(** * Properties *)

(** ** Strings *)

Lemma append_cons (a : ascii) (s t : string) :
  String a s +:+ t = String a (s +:+ t).
Proof. reflexivity. Qed.

Lemma append_empty (t : string) : "" +:+ t = t.
Proof. reflexivity. Qed.

Lemma startswith_spec (p s : string) :
  startswith p s = true <-> exists t : string, s = p +:+ t.
Proof.
  revert s. induction p as [|a p IH]; intros s; simpl.
  - split; [intros _; by exists s | done].
  - destruct s as [|b s].
    + split; [done | intros [t Ht]; discriminate].
    + setoid_rewrite append_cons.
      destruct (Ascii.eqb_spec a b) as [->|Hab].
      * rewrite IH. split; intros [t Ht]; exists t; congruence.
      * split; [done | intros [t Ht]; congruence].
Qed.

Lemma contains_spec (sub s : string) :
  contains sub s = true <-> substring sub s.
Proof.
  unfold substring. induction s as [|b s IH]; simpl.
  - rewrite orb_false_r, startswith_spec. split.
    + intros [t Ht]. by exists ""%string, t.
    + intros [[|a pre] [post H]]; [by exists post | discriminate].
  - rewrite orb_true_iff, startswith_spec, IH. split.
    + intros [[t Ht] | (pre & post & H)].
      * by exists ""%string, t.
      * exists (String b pre), post. rewrite append_cons. by rewrite H.
    + intros [[|a pre] [post H]].
      * left. by exists post.
      * right. exists pre, post. rewrite append_cons in H. congruence.
Qed.

Lemma contains_false (sub s : string) :
  contains sub s = false <-> ~ substring sub s.
Proof. rewrite <- contains_spec. by destruct (contains sub s). Qed.





(** The characters of a string, put together again, are the string. *)
Lemma utf8_chars_concat (s : string) :
  foldr String.append "" (utf8_chars s) = s.
Proof.
  induction s as [|a s IH]; [done|]. cbn [utf8_chars].
  destruct (utf8_chars s) as [|c cs]; cbn [foldr] in *.
  { by rewrite <- IH. }
  destruct (continues s); cbn [foldr]; by rewrite ?append_cons, ?append_empty, IH.
Qed.

Lemma utf8_chars_nil (s : string) : utf8_chars s = [] <-> s = ""%string.
Proof.
  split; [|by intros ->]. intros H.
  by rewrite <- (utf8_chars_concat s), H.
Qed.

Example utf8_chars_ascii : utf8_chars "HIGH" = ["H"; "I"; "G"; "H"]%string.
Proof. reflexivity. Qed.

Example utf8_chars_accents :
  utf8_chars "é€a" = ["é"; "€"; "a"]%string /\ String.length "é€a" = 6%nat.
Proof. split; reflexivity. Qed.

(** ** Outcomes *)


Lemma bind_Ok {A B : Type} (r : result A) (f : A -> result B) (b : B) :
  r ≫= f = Ok b <-> exists a : A, r = Ok a /\ f a = Ok b.
Proof.
  destruct r as [a|e| |]; simpl; split; try done.
  - intros H. by exists a.
  - by intros (a' & [= <-] & H).
  - by intros (a' & ? & _).
  - by intros (a' & ? & _).
  - by intros (a' & ? & _).
Qed.

Lemma bind_settled {A B : Type} (r : result A) (f : A -> result B) :
  settled r -> (forall a : A, settled (f a)) -> settled (r ≫= f).
Proof. destruct r; simpl; auto. Qed.

Lemma settled_cases {A : Type} (r : result A) :
  settled r -> (exists a : A, r = Ok a) \/ (exists e : exn, r = Raised e).
Proof. destruct r; simpl; eauto; done. Qed.

Lemma getitem_settled (x : json) (k : string) : settled (getitem x k).
Proof. destruct x; simpl; try done. by destruct (_ !! _). Qed.

Lemma getitem0_settled (x : json) : settled (getitem0 x).
Proof.
  destruct x as [| | |s|[|]|]; simpl; try done. by destruct (utf8_chars s).
Qed.

Lemma py_in_settled (k : string) (x : json) : settled (py_in k x).
Proof. by destruct x. Qed.

Lemma py_get_settled (x : json) (k : string) : settled (py_get x k).
Proof. by destruct x. Qed.

Lemma py_iter_settled (x : json) : settled (py_iter x).
Proof. by destruct x. Qed.

Create HintDb settled.
#[local] Hint Resolve getitem_settled getitem0_settled py_in_settled
  py_get_settled py_iter_settled : settled.

Ltac settle :=
  repeat first
    [ apply bind_settled; [auto with settled|intros]
    | progress auto with settled
    | match goal with
      | |- settled (if ?b then _ else _) => destruct b
      | |- settled (Ok _) => exact I
      | |- settled (Raised _) => exact I
      | |- settled (let '(_, _) := ?p in _) => destruct p
      end ].

(** ** The Commit Fetcher *)

Lemma commit_fields_settled (content : json) : settled (commit_fields content).
Proof. unfold commit_fields. settle. Qed.

Lemma get_path3 (x : json) (k1 k2 k3 : string) :
  get_path x [k1; k2; k3] =
  (a ← getitem x k1; b ← getitem a k2; getitem b k3).
Proof.
  unfold get_path. simpl.
  destruct (getitem x k1); simpl; try done.
Qed.

Lemma commit_fields_Ok (content : json) (t : json * json * json) :
  commit_fields content = Ok t -> has_commit_fields content.
Proof.
  unfold commit_fields, has_commit_fields. intros H.
  repeat (apply bind_Ok in H; destruct H as (? & ? & H)).
  repeat match goal with H : Ok _ = Ok _ |- _ => injection H as <- end.
  eexists _, _, _, _. rewrite !get_path3. split; [eassumption|].
  repeat match goal with
         | H1 : ?x = Ok ?a, H2 : ?x = Ok ?b |- _ =>
             assert (a = b) as <- by congruence; clear H2
         end.
  repeat split;
    repeat match goal with H : _ = Ok _ |- _ => rewrite H; clear H; simpl end;
    reflexivity.
Qed.

Lemma commit_fields_read (c d e a : json) (rest : list json) (b : bool) :
  get_path c ["commit"; "committer"; "date"]%string = Ok d ->
  get_path c ["commit"; "author"; "email"]%string = Ok e ->
  get_path c ["commit"; "author"; "name"]%string = Ok a ->
  py_in "github" e = Ok b ->
  commit_fields (JArr (c :: rest)) = Ok (d, if b then JStr "none" else e, a).
Proof.
  rewrite !get_path3. intros Hd He Ha Hb.
  unfold commit_fields. simpl.
  destruct (getitem c "commit") as [c1| | |]; simpl in *; try done.
  destruct (getitem c1 "committer") as [c2| | |]; simpl in *; try done.
  rewrite Hd. simpl.
  destruct (getitem c1 "author") as [c3| | |]; simpl in *; try done.
  rewrite He. simpl. rewrite Hb. simpl. by rewrite Ha.
Qed.

Lemma message_is_settled (content : json) (s : string) :
  settled (message_is content s).
Proof. unfold message_is, py_and. settle. Qed.

Lemma message_is_true (content : json) (s : string) :
  message_is content s = Ok true <-> has_message content s.
Proof.
  unfold message_is, py_and, has_message. split.
  - intros H. apply bind_Ok in H as (b & Hin & H). destruct b; [|done].
    apply bind_Ok in H as (v & Hv & H).
    destruct content as [| | | |l|m]; try done.
    exists m. split; [done|]. simpl in Hv.
    destruct (m !! "message"%string) as [v'|]; [|done].
    injection Hv as ->. injection H as H.
    destruct v; try done. simpl in H. apply String.eqb_eq in H. by subst.
  - intros (m & -> & Hm). simpl. rewrite Hm. simpl.
    by rewrite String.eqb_refl.
Qed.

Lemma message_is_object (m : gmap string json) (s : string) :
  exists b : bool, message_is (JObj m) s = Ok b.
Proof.
  unfold message_is, py_and. simpl.
  destruct (m !! "message"%string) as [v|] eqn:Hm; simpl; eauto.
Qed.

(** C5.  When the commit list of a repository is the object whose [message]
    is "Git Repository is empty.", [last_commit] returns the sentinel triple
    [("<empty_repo>", "", "")]; it raises nothing. *)
Theorem last_commit_empty_repo (w : World) (repo : string) (c : json) :
  content (rest_call w (commits_url w repo)) = Some c ->
  has_message c empty_repo_message ->
  last_commit w repo = Ok (JStr "<empty_repo>", JStr "", JStr "").
Proof.
  intros Hc Hm. unfold last_commit, json_loads. rewrite Hc. simpl.
  apply message_is_true in Hm as Hmsg. rewrite Hmsg.
  destruct Hm as (m & -> & _). reflexivity.
Qed.

Lemma last_commit_empty_repo_witness :
  content (rest_call Acme.world (commits_url Acme.world "B")) =
    Some (Acme.obj [("message"%string, JStr empty_repo_message)]) /\
  has_message (Acme.obj [("message"%string, JStr empty_repo_message)]) empty_repo_message /\
  last_commit Acme.world "B" = Ok (JStr "<empty_repo>", JStr "", JStr "").
Proof.
  assert (H1 : content (rest_call Acme.world (commits_url Acme.world "B")) =
    Some (Acme.obj [("message"%string, JStr empty_repo_message)])) by reflexivity.
  assert (H2 : has_message (Acme.obj [("message"%string, JStr empty_repo_message)])
                 empty_repo_message).
  { eexists. split; reflexivity. }
  split; [exact H1|]. split; [exact H2|].
  exact (last_commit_empty_repo Acme.world "B" _ H1 H2).
Defined.

Lemma last_commit_raises (w : World) (repo : string) (c : json) :
  content (rest_call w (commits_url w repo)) = Some c ->
  ~ has_commit_fields c ->
  ~ has_message c empty_repo_message ->
  exists e : exn, last_commit w repo = Raised e.
Proof.
  intros Hc Hf Hm. unfold last_commit, json_loads. rewrite Hc. simpl.
  destruct (settled_cases _ (commit_fields_settled c)) as [[t Ht]|[e He]].
  { destruct Hf. by eapply commit_fields_Ok. }
  rewrite He.
  destruct (settled_cases _ (message_is_settled c empty_repo_message))
    as [[b Hb]|[e' He']].
  - destruct b; [by apply message_is_true in Hb|].
    destruct e; rewrite ?Hb; simpl; eauto.
  - destruct e; rewrite ?He'; simpl; eauto.
Qed.

Lemma last_commit_KeyError (w : World) (repo : string) (c : json) :
  content (rest_call w (commits_url w repo)) = Some c ->
  commit_fields c = Raised KeyError ->
  message_is c empty_repo_message = Ok false ->
  last_commit w repo = Raised (Exception_content c).
Proof.
  intros Hc Hk Hm. unfold last_commit, json_loads.
  rewrite Hc. simpl. by rewrite Hk, Hm.
Qed.

Lemma bind_subscript_error {A B : Type} (r : result A) (f : A -> result B) :
  subscript_error r -> (forall a : A, subscript_error (f a)) ->
  subscript_error (r ≫= f).
Proof.
  intros Hr Hf e. destruct r as [a|e'| |]; cbn; try done.
  - apply Hf.
  - intros [= Heq]. apply Hr. by rewrite Heq.
Qed.

Lemma getitem_subscript_error (x : json) (k : string) :
  subscript_error (getitem x k).
Proof.
  intros e. destruct x; cbn; try (intros [= <-]; auto).
  destruct (_ !! _); [done|]. intros [= <-]. auto.
Qed.

Lemma getitem0_subscript_error (x : json) : subscript_error (getitem0 x).
Proof.
  intros e. destruct x as [| | |s|[|]|]; cbn; try (intros [= <-]; auto); try done.
  destruct (utf8_chars s); [|done]. intros [= <-]. auto.
Qed.

Lemma py_in_subscript_error (k : string) (x : json) : subscript_error (py_in k x).
Proof. intros e. destruct x; cbn; try done; intros [= <-]; auto. Qed.

Lemma commit_fields_subscript_error (content : json) :
  subscript_error (commit_fields content).
Proof.
  unfold commit_fields.
  repeat first
    [ apply bind_subscript_error;
        [first [apply getitem_subscript_error | apply getitem0_subscript_error
               | apply py_in_subscript_error]
        |intros ?]
    | by intros ? ].
Qed.

Lemma commit_fields_KeyError_shape (content : json) :
  commit_fields content = Raised KeyError ->
  (exists m : gmap string json, content = JObj m) \/
  (exists l : list json, content = JArr l).
Proof.
  destruct content as [| | |s| |]; try done; eauto.
  unfold commit_fields. cbn [getitem0].
  destruct (utf8_chars s); cbn; done.
Qed.

Lemma last_commit_message_in_list (w : World) (repo : string) (l : list json) :
  content (rest_call w (commits_url w repo)) = Some (JArr l) ->
  commit_fields (JArr l) = Raised KeyError ->
  JStr "message" ∈ l ->
  last_commit w repo = Raised TypeError.
Proof.
  intros Hc Hk Hl. unfold last_commit, json_loads. rewrite Hc.
  cbn [mbind result_bind]. rewrite Hk.
  unfold message_is, py_and. cbn [py_in].
  assert (existsb (fun v => eq_str v "message") l = true) as ->; [|done].
  apply existsb_exists. exists (JStr "message").
  split; [by apply list_elem_of_In|done].
Qed.

Lemma last_commit_other_error (w : World) (repo : string) (c : json) (e : exn) :
  content (rest_call w (commits_url w repo)) = Some c ->
  commit_fields c = Raised e ->
  e <> KeyError ->
  last_commit w repo = Raised e.
Proof.
  intros Hc He Hne. unfold last_commit, json_loads. rewrite Hc.
  cbn [mbind result_bind]. rewrite He. by destruct e.
Qed.

(** C6, as the code has it.  A commit list that lacks the fields and is not
    the empty repository message makes [last_commit] raise.  The exception
    is [Exception(content)] when the response is an object, and when it is a
    list in which the reading of the fields stops at a missing key and no
    element is the string "message".  Every other shape raises the
    interpreter's own [IndexError] or [TypeError], which does not carry the
    content. *)
Theorem last_commit_unexpected_shape (w : World) (repo : string) (c : json) :
  content (rest_call w (commits_url w repo)) = Some c ->
  ~ has_commit_fields c ->
  ~ has_message c empty_repo_message ->
  (exists e : exn, last_commit w repo = Raised e) /\
  ((exists m : gmap string json, c = JObj m) ->
     last_commit w repo = Raised (Exception_content c)) /\
  (forall l : list json, c = JArr l ->
     commit_fields c = Raised KeyError ->
     JStr "message" ∉ l ->
     last_commit w repo = Raised (Exception_content c)) /\
  (~ (exists m : gmap string json, c = JObj m) ->
   ~ (exists l : list json,
        c = JArr l /\ commit_fields c = Raised KeyError /\ JStr "message" ∉ l) ->
   last_commit w repo = Raised IndexError \/ last_commit w repo = Raised TypeError).
Proof.
  intros Hc Hf Hm. split; [by eapply last_commit_raises|]. split; [|split].
  - intros [m ->]. apply last_commit_KeyError; [done..|].
    destruct (message_is_object m empty_repo_message) as [[|] Hb]; [|done].
    by apply message_is_true in Hb.
  - intros l -> Hk Hl. apply last_commit_KeyError; [done..|].
    unfold message_is, py_and. simpl.
    destruct (existsb _ l) eqn:Hex; [|done].
    apply existsb_exists in Hex as (v & Hv & Heq). destruct Hl.
    destruct v; try done. simpl in Heq. apply String.eqb_eq in Heq as ->.
    by apply list_elem_of_In.
  - intros Hobj Hlist.
    destruct (settled_cases _ (commit_fields_settled c)) as [[t Ht]|[e He]].
    { destruct Hf. by eapply commit_fields_Ok. }
    destruct (commit_fields_subscript_error c e He) as [->|[->| ->]].
    + right. destruct (commit_fields_KeyError_shape c He) as [Ho|[l ->]];
        [by destruct Hobj|].
      apply (last_commit_message_in_list _ _ l); [done..|].
      destruct (existsb (fun v => eq_str v "message") l) eqn:Hex.
      * apply existsb_exists in Hex as (v & Hv & Heq).
        destruct v; try done. simpl in Heq. apply String.eqb_eq in Heq as ->.
        by apply list_elem_of_In.
      * destruct Hlist. exists l. split; [done|]. split; [done|].
        intros Hin. apply list_elem_of_In in Hin.
        assert (existsb (fun v => eq_str v "message") l = true); [|congruence].
        apply existsb_exists. by exists (JStr "message").
    + left. by apply (last_commit_other_error _ _ _ _ Hc He).
    + right. by apply (last_commit_other_error _ _ _ _ Hc He).
Qed.

Lemma last_commit_unexpected_shape_witness :
  content (rest_call Acme.world (commits_url Acme.world "E")) = Some Acme.not_found_body /\
  ~ has_commit_fields Acme.not_found_body /\
  ~ has_message Acme.not_found_body empty_repo_message /\
  last_commit Acme.world "E" = Raised (Exception_content Acme.not_found_body).
Proof.
  assert (H1 : content (rest_call Acme.world (commits_url Acme.world "E")) =
               Some Acme.not_found_body) by reflexivity.
  assert (H2 : ~ has_commit_fields Acme.not_found_body).
  { intros (c & d & e & a & H & _). vm_compute in H. discriminate. }
  assert (H3 : ~ has_message Acme.not_found_body empty_repo_message).
  { intros (m & Heq & Hm). injection Heq as <-. vm_compute in Hm. discriminate. }
  split; [exact H1|]. split; [exact H2|]. split; [exact H3|].
  apply (proj1 (proj2 (last_commit_unexpected_shape Acme.world "E" _ H1 H2 H3))).
  eexists. reflexivity.
Defined.

(** C6, as the specification words it, fails on the empty list: it has no
    first element, carries no message, and [last_commit] raises
    [IndexError] instead of [Exception(content)]. *)
Lemma last_commit_empty_list_IndexError :
  content (rest_call Acme.world (commits_url Acme.world "D")) = Some (JArr []) /\
  ~ has_commit_fields (JArr []) /\
  ~ has_message (JArr []) empty_repo_message /\
  last_commit Acme.world "D" = Raised IndexError /\
  last_commit Acme.world "D" <> Raised (Exception_content (JArr [])).
Proof.
  split; [reflexivity|]. split.
  { intros (c & d & e & a & H & _). discriminate. }
  split.
  { intros (m & H & _). discriminate. }
  split; [reflexivity|]. discriminate.
Qed.

(** C7.  On a commit list whose first commit has a date, an author email
    that is a string and an author name, the email reported is "none" when
    the email contains "github" and the email itself otherwise; the date
    and the name are reported as they are. *)
Theorem last_commit_email (w : World) (repo : string) (c d a : json)
    (rest : list json) (email : string) :
  content (rest_call w (commits_url w repo)) = Some (JArr (c :: rest)) ->
  get_path c ["commit"; "committer"; "date"]%string = Ok d ->
  get_path c ["commit"; "author"; "email"]%string = Ok (JStr email) ->
  get_path c ["commit"; "author"; "name"]%string = Ok a ->
  (substring "github" email -> last_commit w repo = Ok (d, JStr "none", a)) /\
  (~ substring "github" email -> last_commit w repo = Ok (d, JStr email, a)).
Proof.
  intros Hc Hd He Ha.
  pose proof (commit_fields_read c d (JStr email) a rest _ Hd He Ha eq_refl) as H.
  unfold last_commit, json_loads. rewrite Hc. simpl. rewrite H.
  split; intros Hs.
  - apply contains_spec in Hs. by rewrite Hs.
  - apply contains_false in Hs. by rewrite Hs.
Qed.

Lemma last_commit_email_witness :
  content (rest_call Acme.world (commits_url Acme.world "C")) =
    Some (JArr [Acme.commit "2023-01-01T00:00:00Z" "noreply@github.com" "GitHub"]) /\
  substring "github" "noreply@github.com" /\
  last_commit Acme.world "C" = Ok (JStr "2023-01-01T00:00:00Z", JStr "none", JStr "GitHub").
Proof.
  assert (Hs : substring "github" "noreply@github.com").
  { exists "noreply@"%string, ".com"%string. reflexivity. }
  split; [reflexivity|]. split; [exact Hs|].
  exact (proj1 (last_commit_email Acme.world "C" _ _ _ [] _
                  eq_refl eq_refl eq_refl eq_refl) Hs).
Defined.

(** ** The Vulnerability Alert Aggregator: counting *)

Lemma truthy_timestamp (o : option string) :
  o <> Some ""%string -> truthy (json_of_option o) = bool_decide (is_Some o).
Proof.
  destruct o as [s|]; simpl; [|done]. intros H.
  destruct (String.eqb_spec s "") as [->|]; done.
Qed.

Lemma alert_node_dismissedAt (a : Alert) :
  py_get (alert_node a) "dismissedAt" = Ok (json_of_option (dismissedAt a)).
Proof. reflexivity. Qed.

Lemma alert_node_fixedAt (a : Alert) :
  py_get (alert_node a) "fixedAt" = Ok (json_of_option (fixedAt a)).
Proof. reflexivity. Qed.

Lemma alert_node_dismisser (a : Alert) :
  exists d : json,
    py_get (alert_node a) "dismisser" = Ok d /\
    truthy d = bool_decide (is_Some (dismisser a)).
Proof.
  eexists. split; [reflexivity|]. by destruct (dismisser a).
Qed.

Lemma alert_node_severity (a : Alert) :
  (s ← getitem (alert_node a) "securityAdvisory"; getitem s "severity") =
  Ok (JStr (severity a)).
Proof. reflexivity. Qed.

Lemma count_alert_node (critical high : nat) (a : Alert) :
  timestamps_ok a ->
  count_alert (critical, high) (alert_node a) =
    Ok (if decide (counts_toward "CRITICAL" a) then S critical else critical,
        if decide (counts_toward "HIGH" a) then S high else high).
Proof.
  intros [Hd Hf]. unfold count_alert.
  rewrite alert_node_dismissedAt, alert_node_fixedAt.
  destruct (alert_node_dismisser a) as (d & -> & Hdm).
  pose proof (alert_node_severity a) as Hs.
  destruct (getitem (alert_node a) "securityAdvisory") as [s| | |]; try done.
  cbn [mbind result_bind] in *. rewrite Hs. cbn [mbind result_bind].
  rewrite (truthy_timestamp _ Hd), (truthy_timestamp _ Hf), Hdm.
  destruct (dismissedAt a) as [da|] eqn:Eda; simpl.
  { rewrite !decide_False; [done|..]; intros [(? & _) _]; congruence. }
  destruct (fixedAt a) as [fa|] eqn:Efa; simpl.
  { rewrite !decide_False; [done|..]; intros [(_ & ? & _) _]; congruence. }
  destruct (dismisser a) as [dm|] eqn:Edm; simpl.
  { rewrite !decide_False; [done|..]; intros [(_ & _ & ?) _]; congruence. }
  destruct (String.eqb_spec (severity a) "CRITICAL") as [Hc|Hc].
  - rewrite decide_True by (repeat split; done).
    rewrite decide_False; [done|]. intros [_ ?]. congruence.
  - rewrite decide_False by (intros [_ ?]; done).
    destruct (String.eqb_spec (severity a) "HIGH") as [Hh|Hh].
    + by rewrite decide_True by (repeat split; done).
    + by rewrite decide_False by (intros [_ ?]; done).
Qed.

Lemma count_alerts_nodes (alerts : list Alert) (critical high : nat) :
  Forall timestamps_ok alerts ->
  count_alerts (critical, high) (alert_node <$> alerts) =
    Ok (critical + length (filter (counts_toward "CRITICAL") alerts),
        high + length (filter (counts_toward "HIGH") alerts))%nat.
Proof.
  intros H. revert critical high.
  induction H as [|a alerts Ha _ IH]; intros critical high.
  { simpl. f_equal. f_equal; lia. }
  rewrite fmap_cons. cbn [count_alerts].
  rewrite (count_alert_node _ _ _ Ha). cbn [mbind result_bind]. rewrite IH.
  rewrite !filter_cons.
  do 2 destruct (decide _); simpl; f_equal; f_equal; lia.
Qed.

(** C2.  Over a list of alerts, [getDependencyAlerts] counts as critical
    exactly the alerts that have no dismissal timestamp, no fix timestamp
    and no dismisser and whose severity is "CRITICAL", and as high exactly
    those with the same condition and severity "HIGH"; a dismissed or fixed
    alert and an open alert of another severity add to neither count.
    Timestamps are not empty strings. *)
Theorem count_alerts_open_by_severity (alerts : list Alert) :
  Forall timestamps_ok alerts ->
  count_alerts (0, 0)%nat (alert_node <$> alerts) =
    Ok (length (filter (counts_toward "CRITICAL") alerts),
        length (filter (counts_toward "HIGH") alerts)).
Proof. intros H. by rewrite count_alerts_nodes. Qed.

Lemma count_alerts_open_by_severity_witness :
  Forall timestamps_ok
    [Acme.open_critical; Acme.dismissed_high; Acme.fixed_critical;
     Acme.open_high; Acme.open_moderate; Acme.open_critical] /\
  count_alerts (0, 0)%nat
    (alert_node <$>
       [Acme.open_critical; Acme.dismissed_high; Acme.fixed_critical;
        Acme.open_high; Acme.open_moderate; Acme.open_critical]) = Ok (2, 1)%nat.
Proof.
  assert (H : Forall timestamps_ok
    [Acme.open_critical; Acme.dismissed_high; Acme.fixed_critical;
     Acme.open_high; Acme.open_moderate; Acme.open_critical]).
  { repeat constructor; discriminate. }
  split; [exact H|].
  exact (count_alerts_open_by_severity _ H).
Defined.

(** ** The Vulnerability Alert Aggregator: queries and pages *)





Lemma alert_pages_step (w : World) (fuel : nat) (owner name : string)
    (c : json) (acc : list json) :
  alert_pages w (S fuel) owner name c acc =
  (p ← read_alert_page w owner name c;
   match page_next p with
   | Some c' => alert_pages w fuel owner name c' (acc ++ page_nodes p)
   | None => Ok (page_total p, acc ++ page_nodes p)
   end).
Proof.
  cbn [alert_pages]. unfold read_alert_page.
  repeat match goal with
         | |- (?r ≫= _) = ((?r ≫= _) ≫= _) =>
             destruct r; cbn [mbind result_bind]; try reflexivity
         | |- (if ?b then _ else _) = _ =>
             destruct b; cbn [mbind result_bind]; try reflexivity
         end.
Qed.

Lemma alert_pages_chain (w : World) (owner name : string) (c c' : json)
    (ps : list AlertPage) :
  alert_chain w owner name c ps c' ->
  forall (fuel : nat) (acc : list json),
    alert_pages w (length ps + fuel) owner name c acc =
    alert_pages w fuel owner name c' (acc ++ concat (page_nodes <$> ps)).
Proof.
  induction 1 as [c|c p c' ps c'' Hp Hn _ IH]; intros fuel acc.
  - simpl. by rewrite app_nil_r.
  - cbn [length Nat.add]. rewrite alert_pages_step, Hp. cbn [mbind result_bind].
    rewrite Hn, IH, fmap_cons. simpl. by rewrite app_assoc.
Qed.


(** With enough fuel, the loop over a complete sequence of pages ends with
    the total of the last page and the nodes of all pages. *)
Lemma alert_pages_complete (w : World) (owner name : string) (c : json)
    (ps : list AlertPage) (last : AlertPage) (fuel : nat) :
  alert_chain w owner name JNull ps c ->
  read_alert_page w owner name c = Ok last ->
  page_next last = None ->
  (length ps < fuel)%nat ->
  alert_pages w fuel owner name JNull [] =
    Ok (page_total last, concat (page_nodes <$> (ps ++ [last]))).
Proof.
  intros Hch Hl Hn Hf.
  replace fuel with (length ps + S (fuel - S (length ps)))%nat by lia.
  rewrite (alert_pages_chain _ _ _ _ _ _ Hch), alert_pages_step, Hl.
  cbn [mbind result_bind]. rewrite Hn.
  by rewrite fmap_app, concat_app, fmap_cons, fmap_nil, concat_cons, app_nil_r.
Qed.

Lemma bind_no_message {A B : Type} (r : result A) (f : A -> result B) :
  no_message r -> (forall a : A, no_message (f a)) -> no_message (r ≫= f).
Proof.
  intros Hr Hf msg. destruct r as [a|e| |]; cbn; try done.
  - apply Hf.
  - intros [= ->]. by apply (Hr msg).
Qed.

Lemma getitem_no_message (x : json) (k : string) : no_message (getitem x k).
Proof. intros msg. destruct x; cbn; try done. by destruct (_ !! _). Qed.

Lemma py_get_no_message (x : json) (k : string) : no_message (py_get x k).
Proof. intros msg. by destruct x. Qed.

Lemma count_alert_error (acc : nat * nat) (alert : json) : 
  no_message (count_alert acc alert).
Proof.
  unfold count_alert. destruct acc as [critical high].
  repeat first
    [ apply bind_no_message;
        [first [apply getitem_no_message | apply py_get_no_message]
        |intros ?]
    | match goal with
      | |- no_message (if ?b then _ else _) => destruct b
      | |- no_message (Ok _) => by intros ?
      end ].
Qed.

Lemma count_alerts_error (alerts : list json) (acc : nat * nat) :
  no_message (count_alerts acc alerts).
Proof.
  revert acc. induction alerts as [|a alerts IH]; intros acc; [by intros ?|].
  cbn [count_alerts]. apply bind_no_message; [apply count_alert_error|done].
Qed.

Lemma getDependencyAlerts_complete (w : World) (owner name : string) (c : json)
    (ps : list AlertPage) (last : AlertPage) (fuel : nat) :
  alert_chain w owner name JNull ps c ->
  read_alert_page w owner name c = Ok last ->
  page_next last = None ->
  (length ps < fuel)%nat ->
  getDependencyAlerts w fuel owner name =
    check_and_count (page_total last) (concat (page_nodes <$> (ps ++ [last]))).
Proof.
  intros Hch Hl Hn Hf. unfold getDependencyAlerts.
  by rewrite (alert_pages_complete _ _ _ _ _ _ _ Hch Hl Hn Hf).
Qed.

Lemma check_and_count_mismatch (total : json) (alerts : list json) :
  check_and_count total alerts = Raised (Exception_msg count_mismatch_message) <->
  eq_int (Z.of_nat (length alerts)) total = false.
Proof.
  unfold check_and_count. destruct (eq_int _ total); simpl; [|done].
  split; [|done]. intros H. by apply count_alerts_error in H.
Qed.

(** C3.  When the alert query returns the pages [ps] and then [last], which
    announces no further page, [getDependencyAlerts] (with fuel for these
    pages) raises its count mismatch exception, and so returns no counts,
    exactly when the number of nodes of all pages differs from the total the
    last page declares; when they are equal its outcome is that of the
    counting loop over these nodes. *)
Theorem getDependencyAlerts_count_check (w : World) (owner name : string)
    (c : json) (ps : list AlertPage) (last : AlertPage) (fuel : nat) :
  alert_chain w owner name JNull ps c ->
  read_alert_page w owner name c = Ok last ->
  page_next last = None ->
  (length ps < fuel)%nat ->
  let alerts := concat (page_nodes <$> (ps ++ [last])) in
  let n := Z.of_nat (length alerts) in
  (getDependencyAlerts w fuel owner name =
     Raised (Exception_msg count_mismatch_message) <->
   eq_int n (page_total last) = false) /\
  (eq_int n (page_total last) = true ->
   getDependencyAlerts w fuel owner name = count_alerts (0, 0)%nat alerts) /\
  (forall t : Z, page_total last = JNum t ->
     (getDependencyAlerts w fuel owner name =
        Raised (Exception_msg count_mismatch_message) <-> n <> t)).
Proof.
  intros Hch Hl Hn Hf alerts n.
  rewrite (getDependencyAlerts_complete _ _ _ _ _ _ _ Hch Hl Hn Hf).
  fold alerts. split; [apply check_and_count_mismatch|]. split.
  - intros H. unfold check_and_count. fold n. by rewrite H.
  - intros t Ht. rewrite check_and_count_mismatch. fold n. rewrite Ht. simpl.
    by destruct (Z.eqb_spec n t).
Qed.

Lemma getDependencyAlerts_count_check_witness :
  alert_chain Acme.world "acme" "A" JNull [Acme.page1_A] Acme.cursor1 /\
  read_alert_page Acme.world "acme" "A" Acme.cursor1 = Ok Acme.page2_A /\
  page_next Acme.page2_A = None /\
  (length [Acme.page1_A] < 2)%nat /\
  getDependencyAlerts Acme.world 2 "acme" "A" = Ok (1, 0)%nat.
Proof.
  assert (H1 : alert_chain Acme.world "acme" "A" JNull [Acme.page1_A] Acme.cursor1).
  { eapply alert_chain_cons; [reflexivity|reflexivity|apply alert_chain_nil]. }
  assert (H2 : read_alert_page Acme.world "acme" "A" Acme.cursor1 = Ok Acme.page2_A)
    by reflexivity.
  assert (H3 : (length [Acme.page1_A] < 2)%nat) by (simpl; lia).
  split; [exact H1|]. split; [exact H2|]. split; [reflexivity|]. split; [exact H3|].
  exact (proj1 (proj2 (getDependencyAlerts_count_check
                         Acme.world "acme" "A" _ _ _ 2 H1 H2 eq_refl H3)) eq_refl).
Defined.

(** A page whose nodes are a string of one character adds one alert: with
    a declared total of one the count check passes, and the counting loop
    raises on the character. *)
Example getDependencyAlerts_string_nodes :
  getDependencyAlerts Acme.string_nodes 1 "acme" "A" = Raised AttributeError.
Proof. reflexivity. Qed.

Example getDependencyAlerts_mismatch :
  getDependencyAlerts Acme.world 1 "acme" "M" =
    Raised (Exception_msg count_mismatch_message).
Proof. reflexivity. Qed.





(** ** The Repository Lister *)

Lemma repo_records_app (w : World) (fuel : nat) (items : list json)
    (repos : list RepoRecord) :
  repo_records w fuel items repos =
  (records ← repo_records w fuel items []; Ok (repos ++ records)).
Proof.
  revert repos. induction items as [|item items IH]; intros repos.
  - simpl. by rewrite app_nil_r.
  - cbn [repo_records].
    destruct (repo_record w fuel item) as [r| | |]; cbn [mbind result_bind]; try done.
    rewrite IH, (IH ([] ++ [r])).
    destruct (repo_records w fuel items []); cbn [mbind result_bind]; try done.
    by rewrite <- app_assoc.
Qed.

Lemma repo_pages_step (w : World) (pages fuel : nat) (url : string)
    (repos : list RepoRecord) :
  repo_pages w (S pages) fuel url repos =
  (o ← read_repo_page w fuel url;
   match o with
   | Stop => Ok repos
   | Page records (Some next) => repo_pages w pages fuel next (repos ++ records)
   | Page records None => Ok (repos ++ records)
   end).
Proof.
  cbn [repo_pages]. unfold read_repo_page.
  destruct (json_loads _) as [c| | |]; cbn [mbind result_bind]; try done.
  destruct (message_startswith _ _) as [[|]| | |]; cbn [mbind result_bind]; try done.
  destruct (message_is _ _) as [[|]| | |]; cbn [mbind result_bind]; try done.
  destruct (py_iter c) as [items| | |]; cbn [mbind result_bind]; try done.
  rewrite repo_records_app.
  by destruct (repo_records w fuel items []).
Qed.

Lemma repo_pages_chain (w : World) (fuel : nat) (url url' : string)
    (pages : list (list RepoRecord)) :
  repo_chain w fuel url pages url' ->
  forall (n : nat) (repos : list RepoRecord),
    repo_pages w (length pages + n) fuel url repos =
    repo_pages w n fuel url' (repos ++ concat pages).
Proof.
  induction 1 as [url|url records next pages url' Hp _ IH]; intros n repos.
  - simpl. by rewrite app_nil_r.
  - cbn [length Nat.add]. rewrite repo_pages_step, Hp. cbn [mbind result_bind].
    rewrite IH. simpl. by rewrite app_assoc.
Qed.

Lemma read_repo_page_error (w : World) (fuel : nat) (url : string) (c : json)
    (s : string) :
  content (rest_call w url) = Some c ->
  has_message c s ->
  startswith "API rate limit exceeded" s = true \/ s = "Not Found"%string ->
  read_repo_page w fuel url = Ok Stop.
Proof.
  intros Hc (m & -> & Hm) Hs. unfold read_repo_page, json_loads.
  rewrite Hc. cbn [mbind result_bind].
  unfold message_startswith, message_is, py_and.
  cbn [py_in getitem mbind result_bind]. rewrite Hm.
  rewrite bool_decide_eq_true_2 by eauto.
  cbn [py_startswith eq_str mbind result_bind].
  destruct (startswith _ s) eqn:E; [done|].
  destruct Hs as [?| ->]; [congruence|]. reflexivity.
Qed.

(** C8.  When the pages of the repository list before [url] were processed
    to the records [pages], and the body at [url] is an object whose message
    starts with "API rate limit exceeded" or is "Not Found", [list_repos]
    (with fuel for these pages) stops there and returns the records of the
    pages before; it raises nothing. *)
Theorem list_repos_stops_on_error (w : World) (fuel n : nat)
    (pages : list (list RepoRecord)) (url : string) (c : json) (s : string) :
  repo_chain w fuel (repos_url w) pages url ->
  content (rest_call w url) = Some c ->
  has_message c s ->
  startswith "API rate limit exceeded" s = true \/ s = "Not Found"%string ->
  (length pages < n)%nat ->
  list_repos w n fuel = Ok (concat pages).
Proof.
  intros Hch Hc Hm Hs Hn. unfold list_repos.
  replace n with (length pages + S (n - S (length pages)))%nat by lia.
  rewrite (repo_pages_chain _ _ _ _ _ Hch), repo_pages_step.
  by rewrite (read_repo_page_error _ _ _ _ _ Hc Hm Hs).
Qed.

Lemma list_repos_stops_on_error_witness :
  repo_chain Acme.limited 2 (repos_url Acme.limited)
    [[Acme.record_A; Acme.record_B]] Acme.page2_url /\
  content (rest_call Acme.limited Acme.page2_url) = Some Acme.rate_limit_body /\
  has_message Acme.rate_limit_body "API rate limit exceeded for user ID 7." /\
  startswith "API rate limit exceeded" "API rate limit exceeded for user ID 7." = true /\
  list_repos Acme.limited 2 2 = Ok [Acme.record_A; Acme.record_B].
Proof.
  assert (H1 : repo_chain Acme.limited 2 (repos_url Acme.limited)
                 [[Acme.record_A; Acme.record_B]] Acme.page2_url).
  { eapply repo_chain_cons; [reflexivity|apply repo_chain_nil]. }
  assert (H2 : content (rest_call Acme.limited Acme.page2_url) =
               Some Acme.rate_limit_body) by reflexivity.
  assert (H3 : has_message Acme.rate_limit_body
                 "API rate limit exceeded for user ID 7.").
  { eexists. split; reflexivity. }
  split; [exact H1|]. split; [exact H2|]. split; [exact H3|].
  split; [reflexivity|].
  apply (list_repos_stops_on_error Acme.limited 2 2 _ _ _ _ H1 H2 H3).
  - left. reflexivity.
  - simpl. lia.
Defined.

(** What [list_repos] puts in a record: after the name and the commit date
    come the two counts in the order [getDependencyAlerts] returns them,
    critical first. *)
Lemma repo_record_counts (w : World) (fuel : nat) (item : json) (r : RepoRecord) :
  repo_record w fuel item = Ok r ->
  exists (repo : string) (critical high : nat),
    getitem item "name" = Ok (JStr repo) /\
    getDependencyAlerts w fuel (GH_ORGNAME w) repo = Ok (critical, high) /\
    item2 r = critical /\ item3 r = high.
Proof.
  unfold repo_record. intros H.
  apply bind_Ok in H as (n & Hn & H).
  apply bind_Ok in H as (repo & Hrepo & H).
  destruct n; try done. injection Hrepo as ->.
  apply bind_Ok in H as ([[d e] a] & _ & H).
  apply bind_Ok in H as ([critical high] & Hg & H).
  injection H as <-. by exists repo, critical, high.
Qed.

(** C1 fails on the code.  Repository [A] has one open CRITICAL alert and no
    open HIGH alert; [getDependencyAlerts] returns [(1, 0)], critical first,
    and [list_repos] unpacks the pair as [high, critical]: the record of [A]
    has 1 as its third component, where the count of open HIGH alerts is 0,
    and 0 as its fourth, where the count of open CRITICAL alerts is 1. *)
Theorem list_repos_swaps_counts :
  count_alerts (0, 0)%nat (alert_node <$> [Acme.open_critical; Acme.dismissed_high]) =
    Ok (1, 0)%nat /\
  length (filter (counts_toward "HIGH") [Acme.open_critical; Acme.dismissed_high]) = 0%nat /\
  length (filter (counts_toward "CRITICAL") [Acme.open_critical; Acme.dismissed_high]) = 1%nat /\
  getDependencyAlerts Acme.world 2 "acme" "A" = Ok (1, 0)%nat /\
  list_repos Acme.world 2 2 = Ok [Acme.record_A; Acme.record_B; Acme.record_C] /\
  item2 Acme.record_A = 1%nat /\
  item3 Acme.record_A = 0%nat.
Proof. repeat split; reflexivity. Qed.

(** ** The Report Driver *)

Lemma ltb_false_le (s t : string) : String.ltb s t = false <-> String.le t s.
Proof.
  unfold String.le, String.ltb, String.leb.
  rewrite (String.compare_antisym t s).
  destruct (String.compare s t); simpl; split; done.
Qed.

Lemma ltb_true_ge (s t : string) : String.ltb s t = true -> String.ltb t s = false.
Proof.
  unfold String.ltb. rewrite (String.compare_antisym t s).
  by destruct (String.compare s t).
Qed.

Lemma ltb_false_trans (s t u : string) :
  String.ltb s t = false -> String.ltb t u = false -> String.ltb s u = false.
Proof.
  rewrite !ltb_false_le. intros H1 H2.
  by apply (@transitivity _ String.le _ u t s).
Qed.

Lemma date_ge_trans (a b c : RepoRecord) : date_ge a b -> date_ge b c -> date_ge a c.
Proof.
  unfold date_ge.
  destruct (item1 a), (item1 b), (item1 c); try done. apply ltb_false_trans.
Qed.

Lemma insert_desc_sorted (r : RepoRecord) (l : list RepoRecord) :
  (exists s : string, date_is r s) ->
  Forall (fun x => exists s : string, date_is x s) l ->
  StronglySorted date_ge l ->
  exists l' : list RepoRecord,
    insert_desc r l = Ok l' /\ l' ≡ₚ r :: l /\ StronglySorted date_ge l'.
Proof.
  intros [s Hs] Hl Hsorted. unfold date_is in *.
  induction Hl as [|x l [t Ht] Hl IH]; simpl.
  { exists [r]. repeat split; [done|]. repeat constructor. }
  apply StronglySorted_cons in Hsorted as [Hx Hsorted].
  rewrite Hs, Ht. simpl.
  destruct (String.ltb s t) eqn:Hlt; simpl.
  - destruct (IH Hsorted) as (l' & -> & Hperm & Hsorted'). simpl.
    exists (x :: l'). split; [done|]. split.
    + rewrite Hperm. apply Permutation_swap.
    + apply StronglySorted_cons. split; [|done].
      rewrite Hperm. constructor; [|done].
      unfold date_ge. rewrite Hs, Ht. by apply ltb_true_ge.
  - exists (r :: x :: l). split; [done|]. split; [done|].
    assert (Hrx : date_ge r x) by (unfold date_ge; by rewrite Hs, Ht).
    apply StronglySorted_cons. split.
    + constructor; [done|].
      eapply Forall_impl; [exact Hx|]. intros y. by apply date_ge_trans.
    + by apply StronglySorted_cons.
Qed.

Lemma sorted_desc_sorted (l : list RepoRecord) :
  Forall (fun x => exists s : string, date_is x s) l ->
  exists l' : list RepoRecord,
    sorted_desc l = Ok l' /\ l' ≡ₚ l /\ StronglySorted date_ge l'.
Proof.
  induction 1 as [|r l Hr Hl IH]; simpl.
  { exists []. repeat split; [done|constructor]. }
  destruct IH as (s & -> & Hperm & Hsorted). simpl.
  destruct (insert_desc_sorted r s Hr) as (l' & Hi & Hperm' & Hsorted'); [|done|].
  { by rewrite Hperm. }
  exists l'. split; [done|]. split; [|done]. by rewrite Hperm', Hperm.
Qed.

Lemma main_sorted (w : World) (pages fuel : nat) (rs : list RepoRecord)
    (auth : auth_message) :
  get_auth_status w = Ok auth ->
  list_repos w pages fuel = Ok rs ->
  main w pages fuel = sorted_desc rs.
Proof. intros Ha Hr. unfold main. by rewrite Ha, Hr. Qed.


Lemma acme_dates :
  Forall (fun r => exists s : string, date_is r s)
    [Acme.record_A; Acme.record_B; Acme.record_C].
Proof. repeat constructor; eexists; reflexivity. Qed.


Example main_acme :
  main Acme.world 2 2 = Ok [Acme.record_B; Acme.record_A; Acme.record_C].
Proof. reflexivity. Qed.

Lemma digit_before_sentinel (c : ascii) (s : string) :
  is_digit c -> String.ltb (String c s) "<empty_repo>" = true.
Proof.
  unfold is_digit, String.ltb. intros H. cbn [String.compare].
  assert (Ascii.compare c "<" = Lt) as ->; [|done].
  unfold Ascii.compare. apply N.compare_lt_iff.
  unfold nat_of_ascii in H. change (N_of_ascii c < 60)%N. lia.
Qed.

Lemma StronglySorted_lookup {A : Type} (R : A -> A -> Prop) (l : list A)
    (i j : nat) (x y : A) :
  StronglySorted R l -> l !! i = Some x -> l !! j = Some y -> (i < j)%nat -> R x y.
Proof.
  intros Hl. revert i j. induction Hl as [|a l _ IH Ha]; intros i j Hi Hj Hij.
  { done. }
  destruct j as [|j]; [lia|]. simpl in Hj. destruct i as [|i].
  - injection Hi as <-. rewrite Forall_forall in Ha.
    apply Ha. by eapply list_elem_of_lookup_2.
  - simpl in Hi. apply (IH i j); [done..|lia].
Qed.

(** C10.  A commit date that starts with a digit is smaller than the
    sentinel "<empty_repo>" in the order of strings, so in the report, which
    holds the records [list_repos] returned and no others, every record of
    an empty repository stands before every record whose date starts with a
    digit. *)
Theorem empty_repos_first (w : World) (pages fuel : nat)
    (rs : list RepoRecord) (auth : auth_message) :
  get_auth_status w = Ok auth ->
  list_repos w pages fuel = Ok rs ->
  Forall (fun r => exists s : string, date_is r s) rs ->
  (forall (c : ascii) (s : string),
     is_digit c -> String.ltb (String c s) "<empty_repo>" = true) /\
  exists out : list RepoRecord,
    main w pages fuel = Ok out /\
    out ≡ₚ rs /\
    forall (i j : nat) (r1 r2 : RepoRecord) (c : ascii) (s : string),
      out !! i = Some r1 -> out !! j = Some r2 ->
      date_is r1 "<empty_repo>" -> date_is r2 (String c s) -> is_digit c ->
      (i < j)%nat.
Proof.
  intros Ha Hr Hs. split; [apply digit_before_sentinel|].
  destruct (sorted_desc_sorted rs Hs) as (out & Hm & Hperm & Hsorted).
  exists out. split; [by rewrite (main_sorted _ _ _ _ _ Ha Hr)|].
  split; [done|].
  intros i j r1 r2 c s Hi Hj H1 H2 Hc.
  pose proof (digit_before_sentinel c s Hc) as Hlt.
  destruct (Nat.lt_trichotomy i j) as [?|[->|Hji]]; [done|..].
  - rewrite Hi in Hj. injection Hj as ->. unfold date_is in *.
    rewrite H1 in H2. injection H2 as <- _.
    unfold is_digit in Hc. vm_compute in Hc. lia.
  - pose proof (StronglySorted_lookup _ _ _ _ _ _ Hsorted Hj Hi Hji) as Hge.
    unfold date_ge, date_is in *. rewrite H1, H2 in Hge. congruence.
Qed.

Lemma empty_repos_first_witness :
  get_auth_status Acme.world = Ok SuccessfullyAuthenticated /\
  list_repos Acme.world 2 2 = Ok [Acme.record_A; Acme.record_B; Acme.record_C] /\
  Forall (fun r => exists s : string, date_is r s)
    [Acme.record_A; Acme.record_B; Acme.record_C] /\
  String.ltb "2024-06-01T10:00:00Z" "<empty_repo>" = true /\
  exists out : list RepoRecord,
    main Acme.world 2 2 = Ok out /\
    out ≡ₚ [Acme.record_A; Acme.record_B; Acme.record_C] /\
    (forall i j : nat,
       out !! i = Some Acme.record_B -> out !! j = Some Acme.record_A -> (i < j)%nat) /\
    (forall i j : nat,
       out !! i = Some Acme.record_B -> out !! j = Some Acme.record_C -> (i < j)%nat).
Proof.
  split; [reflexivity|]. split; [reflexivity|]. split; [exact acme_dates|].
  destruct (empty_repos_first Acme.world 2 2 _ _ eq_refl eq_refl acme_dates)
    as [Hlt (out & Hm & Hperm & Horder)].
  assert (Hd : is_digit "2") by (unfold is_digit; vm_compute; lia).
  split; [by apply Hlt|].
  exists out. split; [exact Hm|]. split; [exact Hperm|]. split.
  - intros i j Hi Hj.
    by apply (Horder i j _ _ "2"%char "024-06-01T10:00:00Z"%string Hi Hj).
  - intros i j Hi Hj.
    by apply (Horder i j _ _ "2"%char "023-01-01T00:00:00Z"%string Hi Hj).
Defined.

(** * Further properties *)

(** ** The Auth Status Checker *)

Lemma get_auth_status_read (w : World) (m rate : gmap string json)
    (limit remaining : json) :
  content (rest_call w "https://api.github.com/rate_limit") = Some (JObj m) ->
  m !! "rate"%string = Some (JObj rate) ->
  rate !! "limit"%string = Some limit ->
  rate !! "remaining"%string = Some remaining ->
  get_auth_status w =
    Ok (if eq_int 60 limit then NotAuthenticated
        else if eq_int 5000 limit then SuccessfullyAuthenticated
        else NoMessage).
Proof.
  intros Hc Hm Hl Hr. unfold get_auth_status, json_loads. rewrite Hc.
  cbn [mbind result_bind getitem]. rewrite Hm.
  cbn [mbind result_bind getitem]. rewrite Hl, Hr.
  cbn [mbind result_bind]. by repeat destruct (eq_int _ _).
Qed.

(** When the rate limit response has an integer [limit] and a [remaining]
    field, [get_auth_status] raises nothing; it warns exactly when the limit
    is 60, confirms exactly when it is 5000, and says nothing for any other
    limit. *)
Theorem get_auth_status_message (w : World) (m rate : gmap string json)
    (n : Z) (remaining : json) :
  content (rest_call w "https://api.github.com/rate_limit") = Some (JObj m) ->
  m !! "rate"%string = Some (JObj rate) ->
  rate !! "limit"%string = Some (JNum n) ->
  rate !! "remaining"%string = Some remaining ->
  exists msg : auth_message,
    get_auth_status w = Ok msg /\
    (msg = NotAuthenticated <-> n = 60) /\
    (msg = SuccessfullyAuthenticated <-> n = 5000) /\
    (msg = NoMessage <-> n <> 60 /\ n <> 5000).
Proof.
  intros Hc Hm Hl Hr.
  rewrite (get_auth_status_read _ _ _ _ _ Hc Hm Hl Hr). cbn [eq_int].
  destruct (Z.eqb_spec 60 n) as [<-|H60].
  { eexists. split; [done|]. repeat split; try done. by intros [? _]. }
  destruct (Z.eqb_spec 5000 n) as [<-|H5000].
  { eexists. split; [done|]. repeat split; try done. by intros [_ ?]. }
  eexists. split; [done|]. repeat split; try done; intros; by subst.
Qed.

Lemma get_auth_status_message_witness :
  exists msg : auth_message,
    get_auth_status Acme.world = Ok msg /\
    (msg = NotAuthenticated <-> 5000 = 60) /\
    (msg = SuccessfullyAuthenticated <-> 5000 = 5000) /\
    (msg = NoMessage <-> 5000 <> 60 /\ 5000 <> 5000).
Proof.
  eapply (get_auth_status_message Acme.world _ _ 5000 (JNum 4990));
    reflexivity.
Defined.

Lemma get_auth_status_KeyError (w : World) (m : gmap string json) :
  content (rest_call w "https://api.github.com/rate_limit") = Some (JObj m) ->
  m !! "rate"%string = None \/
  (exists rate : gmap string json,
     m !! "rate"%string = Some (JObj rate) /\
     (rate !! "limit"%string = None \/ rate !! "remaining"%string = None)) ->
  get_auth_status w = Raised KeyError.
Proof.
  intros Hc H. unfold get_auth_status, json_loads. rewrite Hc.
  cbn [mbind result_bind getitem].
  destruct H as [->|(rate & -> & H)]; [done|].
  cbn [mbind result_bind getitem].
  destruct (rate !! "limit"%string) as [l|]; [|done].
  destruct H as [?| ->]; done.
Qed.

(** When the rate limit response is an object without [rate], or whose
    [rate] lacks [limit] or [remaining], [get_auth_status] raises [KeyError]
    and so does [main]: there is no report, whatever the repository list
    would have given. *)
Theorem main_aborts_on_auth_status (w : World) (m : gmap string json)
    (pages fuel : nat) :
  content (rest_call w "https://api.github.com/rate_limit") = Some (JObj m) ->
  m !! "rate"%string = None \/
  (exists rate : gmap string json,
     m !! "rate"%string = Some (JObj rate) /\
     (rate !! "limit"%string = None \/ rate !! "remaining"%string = None)) ->
  get_auth_status w = Raised KeyError /\ main w pages fuel = Raised KeyError.
Proof.
  intros Hc H. pose proof (get_auth_status_KeyError _ _ Hc H) as Ha.
  split; [done|]. unfold main. by rewrite Ha.
Qed.

Lemma main_aborts_on_auth_status_witness :
  content (rest_call Faulty.bad_credentials "https://api.github.com/rate_limit") =
    Some Faulty.bad_credentials_body /\
  get_auth_status Faulty.bad_credentials = Raised KeyError /\
  main Faulty.bad_credentials 3 3 = Raised KeyError.
Proof.
  split; [reflexivity|].
  refine (main_aborts_on_auth_status Faulty.bad_credentials _ 3 3 eq_refl _).
  left. reflexivity.
Defined.

(** ** The Commit Fetcher, further *)

Lemma commit_fields_inv (content d e a : json) :
  commit_fields content = Ok (d, e, a) ->
  exists (c e0 : json) (b : bool),
    getitem0 content = Ok c /\
    get_path c ["commit"; "committer"; "date"]%string = Ok d /\
    get_path c ["commit"; "author"; "email"]%string = Ok e0 /\
    get_path c ["commit"; "author"; "name"]%string = Ok a /\
    py_in "github" e0 = Ok b /\
    e = (if b then JStr "none" else e0).
Proof.
  unfold commit_fields. intros H.
  apply bind_Ok in H as (c & Hc & H). rewrite Hc in H. cbn [mbind result_bind] in H.
  apply bind_Ok in H as (c1 & H1 & H).
  apply bind_Ok in H as (c2 & H2 & H).
  apply bind_Ok in H as (d' & Hd & H).
  rewrite H1 in H. cbn [mbind result_bind] in H.
  apply bind_Ok in H as (c3 & H3 & H).
  apply bind_Ok in H as (e0 & He & H).
  apply bind_Ok in H as (b & Hb & H).
  rewrite H3 in H. cbn [mbind result_bind] in H.
  apply bind_Ok in H as (a' & Ha & H).
  injection H as <- <- <-.
  exists c, e0, b. rewrite !get_path3, H1. cbn [mbind result_bind].
  rewrite H2, H3. cbn [mbind result_bind]. by rewrite Hd, He, Ha.
Qed.

Lemma last_commit_Ok (w : World) (repo : string) (c : json) (t : json * json * json) :
  content (rest_call w (commits_url w repo)) = Some c ->
  last_commit w repo = Ok t ->
  commit_fields c = Ok t \/
  (has_message c empty_repo_message /\ t = (JStr "<empty_repo>", JStr "", JStr "")).
Proof.
  intros Hc. unfold last_commit, json_loads. rewrite Hc. cbn [mbind result_bind].
  destruct (commit_fields c) as [t'|e| |] eqn:Hf; try done; [by left|].
  destruct e; try done. intros H. right.
  apply bind_Ok in H as (b & Hb & H). destruct b; [|done].
  injection H as <-. split; [|done]. by apply message_is_true.
Qed.

(** Whatever triple [last_commit] returns is either the sentinel, on the
    empty repository message, or read from the first element of the commit
    list: its committer date and author name as they are, and its author
    email either as it is or replaced by "none". *)
Theorem last_commit_sound (w : World) (repo : string) (c d e a : json) :
  content (rest_call w (commits_url w repo)) = Some c ->
  last_commit w repo = Ok (d, e, a) ->
  (has_message c empty_repo_message /\
   (d, e, a) = (JStr "<empty_repo>", JStr "", JStr "")) \/
  (exists c0 e0 : json,
     getitem0 c = Ok c0 /\
     get_path c0 ["commit"; "committer"; "date"]%string = Ok d /\
     get_path c0 ["commit"; "author"; "email"]%string = Ok e0 /\
     get_path c0 ["commit"; "author"; "name"]%string = Ok a /\
     (e = e0 \/ e = JStr "none")).
Proof.
  intros Hc H. destruct (last_commit_Ok _ _ _ _ Hc H) as [Hf|[Hm Ht]]; [|by left].
  right. apply commit_fields_inv in Hf as (c0 & e0 & b & H0 & Hd & He & Ha & _ & ->).
  exists c0, e0. repeat split; try done. destruct b; auto.
Qed.

Lemma last_commit_sound_witness :
  content (rest_call Acme.world (commits_url Acme.world "A")) =
    Some (JArr [Acme.commit "2024-06-01T10:00:00Z" "dev@example.com" "Dev"]) /\
  last_commit Acme.world "A" =
    Ok (JStr "2024-06-01T10:00:00Z", JStr "dev@example.com", JStr "Dev") /\
  ((has_message (JArr [Acme.commit "2024-06-01T10:00:00Z" "dev@example.com" "Dev"])
      empty_repo_message /\
    (JStr "2024-06-01T10:00:00Z", JStr "dev@example.com", JStr "Dev") =
      (JStr "<empty_repo>", JStr "", JStr "")) \/
   (exists c0 e0 : json,
      getitem0 (JArr [Acme.commit "2024-06-01T10:00:00Z" "dev@example.com" "Dev"]) = Ok c0 /\
      get_path c0 ["commit"; "committer"; "date"]%string = Ok (JStr "2024-06-01T10:00:00Z") /\
      get_path c0 ["commit"; "author"; "email"]%string = Ok e0 /\
      get_path c0 ["commit"; "author"; "name"]%string = Ok (JStr "Dev") /\
      (JStr "dev@example.com" = e0 \/ JStr "dev@example.com" = JStr "none"))).
Proof.
  split; [reflexivity|]. split; [reflexivity|].
  exact (last_commit_sound Acme.world "A" _ _ _ _ eq_refl eq_refl).
Defined.

(** An email that [last_commit] returns as a string never contains
    "github". *)
Theorem last_commit_hides_github (w : World) (repo : string) (d a : json)
    (email : string) :
  last_commit w repo = Ok (d, JStr email, a) ->
  ~ substring "github" email.
Proof.
  intros H. apply contains_false.
  destruct (content (rest_call w (commits_url w repo))) as [c|] eqn:Hc.
  2: { unfold last_commit, json_loads in H. by rewrite Hc in H. }
  destruct (last_commit_Ok _ _ _ _ Hc H) as [Hf|[_ Ht]].
  - apply commit_fields_inv in Hf as (c0 & e0 & b & _ & _ & _ & _ & Hb & He).
    destruct b; [by injection He as ->|]. subst e0. by injection Hb.
  - by injection Ht as _ -> _.
Qed.

Lemma last_commit_hides_github_witness :
  last_commit Acme.world "C" = Ok (JStr "2023-01-01T00:00:00Z", JStr "none", JStr "GitHub") /\
  ~ substring "github" "none".
Proof.
  split; [reflexivity|].
  exact (last_commit_hides_github Acme.world "C" _ _ _ eq_refl).
Defined.

(** A first commit whose author email is [null], a number or a boolean makes
    [last_commit] raise [TypeError], which its handler does not catch. *)
Theorem last_commit_email_not_iterable (w : World) (repo : string)
    (c d e : json) (rest : list json) :
  content (rest_call w (commits_url w repo)) = Some (JArr (c :: rest)) ->
  get_path c ["commit"; "committer"; "date"]%string = Ok d ->
  get_path c ["commit"; "author"; "email"]%string = Ok e ->
  e = JNull \/ (exists b : bool, e = JBool b) \/ (exists z : Z, e = JNum z) ->
  last_commit w repo = Raised TypeError.
Proof.
  rewrite !get_path3. intros Hc Hd He Hty.
  assert (Hin : py_in "github" e = Raised TypeError).
  { destruct Hty as [->|[[b ->]|[z ->]]]; reflexivity. }
  unfold last_commit, json_loads. rewrite Hc. cbn [mbind result_bind].
  unfold commit_fields. cbn [getitem0 mbind result_bind].
  destruct (getitem c "commit") as [c1| | |]; cbn [mbind result_bind] in *; try done.
  destruct (getitem c1 "committer") as [c2| | |]; cbn [mbind result_bind] in *; try done.
  rewrite Hd. cbn [mbind result_bind].
  destruct (getitem c1 "author") as [c3| | |]; cbn [mbind result_bind] in *; try done.
  rewrite He. cbn [mbind result_bind]. by rewrite Hin.
Qed.

Lemma last_commit_email_not_iterable_witness :
  content (rest_call Faulty.null_email (commits_url Faulty.null_email "A")) =
    Some (JArr [Faulty.commit_null_email]) /\
  last_commit Faulty.null_email "A" = Raised TypeError.
Proof.
  split; [reflexivity|].
  refine (last_commit_email_not_iterable Faulty.null_email "A" _ _ JNull []
            eq_refl eq_refl eq_refl _).
  left. reflexivity.
Defined.

(** ** The Vulnerability Alert Aggregator, further *)

(** What one alert adds to the counters does not depend on the counters. *)
Lemma count_alert_shift (critical high : nat) (alert : json) :
  count_alert (critical, high) alert =
  ('(dc, dh) ← count_alert (0, 0)%nat alert; Ok (critical + dc, high + dh)%nat).
Proof.
  unfold count_alert.
  destruct (py_get alert "dismissedAt") as [v1| | |]; cbn [mbind result_bind]; try done.
  destruct (truthy v1); [cbn; by rewrite !Nat.add_0_r|].
  destruct (py_get alert "fixedAt") as [v2| | |]; cbn [mbind result_bind]; try done.
  destruct (truthy v2); [cbn; by rewrite !Nat.add_0_r|].
  destruct (py_get alert "dismisser") as [v3| | |]; cbn [mbind result_bind]; try done.
  destruct (truthy v3); [cbn; by rewrite !Nat.add_0_r|].
  destruct (getitem alert "securityAdvisory") as [s| | |]; cbn [mbind result_bind]; try done.
  destruct (getitem s "severity") as [v| | |]; cbn [mbind result_bind]; try done.
  destruct (eq_str v "CRITICAL"); [cbn; by rewrite Nat.add_0_r, Nat.add_1_r|].
  destruct (eq_str v "HIGH"); cbn; by rewrite ?Nat.add_0_r, ?Nat.add_1_r.
Qed.

Lemma count_alert_one (alert : json) (dc dh : nat) :
  count_alert (0, 0)%nat alert = Ok (dc, dh) -> (dc + dh <= 1)%nat.
Proof.
  unfold count_alert. intros H.
  repeat match type of H with
         | (?r ≫= _) = Ok _ =>
             destruct r; cbn [mbind result_bind] in H; try done
         | (if ?b then _ else _) = Ok _ => destruct b
         end;
    injection H as <- <-; lia.
Qed.

Lemma count_alerts_shift (alerts : list json) (critical high : nat) :
  count_alerts (critical, high) alerts =
  ('(dc, dh) ← count_alerts (0, 0)%nat alerts; Ok (critical + dc, high + dh)%nat).
Proof.
  revert critical high. induction alerts as [|a alerts IH]; intros critical high.
  { cbn. by rewrite !Nat.add_0_r. }
  cbn [count_alerts]. rewrite count_alert_shift.
  destruct (count_alert (0, 0)%nat a) as [[dc dh]| | |]; cbn [mbind result_bind]; try done.
  rewrite (IH (critical + dc) (high + dh))%nat, (IH dc dh).
  destruct (count_alerts (0, 0)%nat alerts) as [[dc' dh']| | |];
    cbn [mbind result_bind]; try done.
  f_equal. f_equal; lia.
Qed.

Lemma count_alerts_app (l1 l2 : list json) (acc : nat * nat) :
  count_alerts acc (l1 ++ l2) = (acc' ← count_alerts acc l1; count_alerts acc' l2).
Proof.
  revert acc. induction l1 as [|a l1 IH]; intros acc; [done|].
  cbn [app count_alerts].
  destruct (count_alert acc a); cbn [mbind result_bind]; [apply IH|done..].
Qed.

Lemma count_alerts_le (alerts : list json) (critical high : nat) :
  count_alerts (0, 0)%nat alerts = Ok (critical, high) ->
  (critical + high <= length alerts)%nat.
Proof.
  revert critical high. induction alerts as [|a alerts IH]; intros critical high.
  { intros [= <- <-]. simpl. lia. }
  cbn [count_alerts]. intros H.
  apply bind_Ok in H as ([dc dh] & Ha & H).
  rewrite count_alerts_shift in H.
  apply bind_Ok in H as ([dc' dh'] & Hl & H). injection H as <- <-.
  apply count_alert_one in Ha. apply IH in Hl. simpl. lia.
Qed.

(** The counters never exceed the number of alerts gone through: from
    zero, critical plus high is at most the length of the list, also when
    some alerts are malformed but none makes the loop raise. *)
Theorem count_alerts_bound (alerts : list json) (critical high : nat) :
  count_alerts (0, 0)%nat alerts = Ok (critical, high) ->
  (critical + high <= length alerts)%nat /\
  (critical <= length alerts)%nat /\ (high <= length alerts)%nat.
Proof. intros H. apply count_alerts_le in H. lia. Qed.

Lemma count_alerts_bound_witness :
  count_alerts (0, 0)%nat
    [alert_node Acme.open_critical; alert_node Acme.dismissed_high;
     alert_node Acme.open_high] = Ok (1, 1)%nat /\
  (1 + 1 <= 3)%nat.
Proof.
  split; [reflexivity|].
  exact (proj1 (count_alerts_bound
           [alert_node Acme.open_critical; alert_node Acme.dismissed_high;
            alert_node Acme.open_high] 1 1 eq_refl)).
Defined.

(** Counting is additive over concatenation: the counts of two lists of
    alerts put one after the other are the sums of their counts, so the
    result does not depend on how the alerts were split into pages. *)
Theorem count_alerts_additive (l1 l2 : list json) (c1 h1 c2 h2 : nat) :
  count_alerts (0, 0)%nat l1 = Ok (c1, h1) ->
  count_alerts (0, 0)%nat l2 = Ok (c2, h2) ->
  count_alerts (0, 0)%nat (l1 ++ l2) = Ok (c1 + c2, h1 + h2)%nat.
Proof.
  intros H1 H2. rewrite count_alerts_app, H1. cbn [mbind result_bind].
  by rewrite count_alerts_shift, H2.
Qed.

Lemma count_alerts_additive_witness :
  count_alerts (0, 0)%nat [alert_node Acme.open_critical] = Ok (1, 0)%nat /\
  count_alerts (0, 0)%nat [alert_node Acme.dismissed_high; alert_node Acme.open_high] =
    Ok (0, 1)%nat /\
  count_alerts (0, 0)%nat
    ([alert_node Acme.open_critical] ++
     [alert_node Acme.dismissed_high; alert_node Acme.open_high]) = Ok (1, 1)%nat.
Proof.
  split; [reflexivity|]. split; [reflexivity|].
  exact (count_alerts_additive
           [alert_node Acme.open_critical]
           [alert_node Acme.dismissed_high; alert_node Acme.open_high]
           1 0 0 1 eq_refl eq_refl).
Defined.

Lemma count_alert_swap (acc acc2 : nat * nat) (x y : json) :
  (a1 ← count_alert acc x; count_alert a1 y) = Ok acc2 ->
  (a1 ← count_alert acc y; count_alert a1 x) = Ok acc2.
Proof.
  destruct acc as [c h].
  rewrite (count_alert_shift c h x), (count_alert_shift c h y).
  destruct (count_alert (0, 0)%nat x) as [[cx hx]| | |] eqn:Hx;
    cbn [mbind result_bind]; try done.
  rewrite (count_alert_shift _ _ y).
  destruct (count_alert (0, 0)%nat y) as [[cy hy]| | |] eqn:Hy;
    cbn [mbind result_bind]; try done.
  rewrite (count_alert_shift _ _ x), Hx. cbn [mbind result_bind].
  intros [= <-]. f_equal. f_equal; lia.
Qed.

Lemma count_alerts_perm_acc (l1 l2 : list json) :
  l1 ≡ₚ l2 ->
  forall acc r : nat * nat,
    count_alerts acc l1 = Ok r -> count_alerts acc l2 = Ok r.
Proof.
  induction 1 as [|a l1 l2 _ IH|a b l|l1 l2 l3 _ IH1 _ IH2]; intros acc r H.
  - done.
  - cbn [count_alerts] in *. apply bind_Ok in H as (acc' & Ha & H).
    rewrite Ha. cbn [mbind result_bind]. by apply IH.
  - cbn [count_alerts] in *.
    apply bind_Ok in H as (a1 & H1 & H).
    apply bind_Ok in H as (a2 & H2 & H).
    assert (Hs : (a1' ← count_alert acc a; count_alert a1' b) = Ok a2).
    { apply count_alert_swap. rewrite H1. cbn [mbind result_bind]. exact H2. }
    apply bind_Ok in Hs as (a1' & -> & Hs). cbn [mbind result_bind].
    by rewrite Hs.
  - apply IH2, IH1, H.
Qed.

(** The counts do not depend on the order of the alerts: when the counting
    loop goes through a list, it goes through every rearrangement of it,
    with the same counts. *)
Theorem count_alerts_permutation (l1 l2 : list json) (counts : nat * nat) :
  l1 ≡ₚ l2 ->
  count_alerts (0, 0)%nat l1 = Ok counts ->
  count_alerts (0, 0)%nat l2 = Ok counts.
Proof. intros Hp. by apply count_alerts_perm_acc. Qed.

Lemma count_alerts_permutation_witness :
  [alert_node Acme.open_critical; alert_node Acme.open_high] ≡ₚ
    [alert_node Acme.open_high; alert_node Acme.open_critical] /\
  count_alerts (0, 0)%nat [alert_node Acme.open_critical; alert_node Acme.open_high] =
    Ok (1, 1)%nat /\
  count_alerts (0, 0)%nat [alert_node Acme.open_high; alert_node Acme.open_critical] =
    Ok (1, 1)%nat.
Proof.
  assert (Hp : [alert_node Acme.open_critical; alert_node Acme.open_high] ≡ₚ
               [alert_node Acme.open_high; alert_node Acme.open_critical])
    by apply Permutation_swap.
  split; [exact Hp|]. split; [reflexivity|].
  exact (count_alerts_permutation
           [alert_node Acme.open_critical; alert_node Acme.open_high]
           [alert_node Acme.open_high; alert_node Acme.open_critical]
           (1, 1)%nat Hp eq_refl).
Defined.

Lemma count_alert_object (acc : nat * nat) (m : gmap string json) :
  count_alert acc (JObj m) =
  (if field_set m "dismissedAt" || field_set m "fixedAt" || field_set m "dismisser"
   then Ok acc
   else
     s ← getitem (JObj m) "securityAdvisory";
     v ← getitem s "severity";
     if eq_str v "CRITICAL" then Ok (S acc.1, acc.2)
     else if eq_str v "HIGH" then Ok (acc.1, S acc.2) else Ok acc).
Proof.
  destruct acc as [c h]. unfold count_alert, field_set.
  cbn [py_get mbind result_bind fst snd].
  destruct (truthy (default JNull (m !! "dismissedAt"%string))); [done|].
  destruct (truthy (default JNull (m !! "fixedAt"%string))); [done|].
  destruct (truthy (default JNull (m !! "dismisser"%string))); [done|].
  cbn [orb].
  destruct (getitem (JObj m) "securityAdvisory") as [s| | |];
    cbn [mbind result_bind]; try done.
  by destruct (getitem s "severity") as [v| | |].
Qed.

(** The severity of an alert is read only when the alert is open.  An alert
    object with a dismissal timestamp, a fix timestamp or a dismisser leaves
    the counters as they are even when it has no [securityAdvisory]; an open
    one without [securityAdvisory] raises [KeyError]; an alert that is not
    an object raises [AttributeError]. *)
Theorem count_alert_edges (acc : nat * nat) (alert : json) :
  (forall (m : gmap string json) (k : string),
     alert = JObj m -> k ∈ closing_fields -> field_set m k = true ->
     count_alert acc alert = Ok acc) /\
  (forall m : gmap string json,
     alert = JObj m -> open_object m -> m !! "securityAdvisory"%string = None ->
     count_alert acc alert = Raised KeyError) /\
  ((forall m : gmap string json, alert <> JObj m) ->
   count_alert acc alert = Raised AttributeError).
Proof.
  split; [|split].
  - intros m k -> Hk Hset. rewrite count_alert_object.
    unfold closing_fields in Hk.
    repeat (apply elem_of_cons in Hk as [->|Hk]);
      [rewrite Hset; by rewrite ?orb_true_r..|by apply elem_of_nil in Hk].
  - intros m -> Hopen Hs. rewrite count_alert_object.
    unfold open_object, closing_fields in Hopen.
    apply Forall_cons in Hopen as [-> Hopen].
    apply Forall_cons in Hopen as [-> Hopen].
    apply Forall_cons in Hopen as [-> _].
    cbn [orb getitem]. by rewrite Hs.
  - intros Hno. destruct acc as [c h].
    destruct alert as [| | | | |m]; [done..|by destruct (Hno m)].
Qed.

Lemma count_alert_edges_witness :
  count_alert (3, 4)%nat Faulty.closed_orphan_alert = Ok (3, 4)%nat /\
  count_alert (3, 4)%nat Faulty.orphan_alert = Raised KeyError /\
  count_alert (3, 4)%nat (JStr "RVA_7") = Raised AttributeError.
Proof.
  split; [|split].
  - refine (proj1 (count_alert_edges (3, 4)%nat Faulty.closed_orphan_alert)
              _ "fixedAt"%string eq_refl _ eq_refl).
    unfold closing_fields. apply elem_of_cons. right. apply elem_of_cons. by left.
  - refine (proj1 (proj2 (count_alert_edges (3, 4)%nat Faulty.orphan_alert))
              _ eq_refl _ eq_refl).
    unfold open_object, closing_fields. repeat constructor.
  - apply (proj2 (proj2 (count_alert_edges (3, 4)%nat (JStr "RVA_7")))).
    intros m. discriminate.
Defined.

(** Put together: when the server returns a complete sequence of pages
    whose nodes are the alerts [alerts] and whose last page declares their
    number, [getDependencyAlerts] returns the number of open CRITICAL and the
    number of open HIGH alerts among them. *)
Theorem getDependencyAlerts_counts (w : World) (owner name : string) (c : json)
    (ps : list AlertPage) (last : AlertPage) (fuel : nat) (alerts : list Alert) :
  alert_chain w owner name JNull ps c ->
  read_alert_page w owner name c = Ok last ->
  page_next last = None ->
  (length ps < fuel)%nat ->
  concat (page_nodes <$> (ps ++ [last])) = alert_node <$> alerts ->
  page_total last = JNum (Z.of_nat (length alerts)) ->
  Forall timestamps_ok alerts ->
  getDependencyAlerts w fuel owner name =
    Ok (length (filter (counts_toward "CRITICAL") alerts),
        length (filter (counts_toward "HIGH") alerts)).
Proof.
  intros Hch Hl Hn Hf Hnodes Htotal Hts.
  rewrite (getDependencyAlerts_complete _ _ _ _ _ _ _ Hch Hl Hn Hf).
  rewrite Hnodes, Htotal. unfold check_and_count.
  rewrite length_fmap. cbn [eq_int]. rewrite Z.eqb_refl. cbn [negb].
  by rewrite count_alerts_nodes.
Qed.

Lemma getDependencyAlerts_counts_witness :
  alert_chain Acme.world "acme" "A" JNull [Acme.page1_A] Acme.cursor1 /\
  read_alert_page Acme.world "acme" "A" Acme.cursor1 = Ok Acme.page2_A /\
  Forall timestamps_ok [Acme.open_critical; Acme.dismissed_high] /\
  getDependencyAlerts Acme.world 2 "acme" "A" = Ok (1, 0)%nat.
Proof.
  assert (H1 : alert_chain Acme.world "acme" "A" JNull [Acme.page1_A] Acme.cursor1).
  { eapply alert_chain_cons; [reflexivity|reflexivity|apply alert_chain_nil]. }
  assert (H2 : read_alert_page Acme.world "acme" "A" Acme.cursor1 = Ok Acme.page2_A)
    by reflexivity.
  assert (H3 : Forall timestamps_ok [Acme.open_critical; Acme.dismissed_high]).
  { repeat constructor; discriminate. }
  split; [exact H1|]. split; [exact H2|]. split; [exact H3|].
  refine (getDependencyAlerts_counts Acme.world "acme" "A" _ _ _ 2
            [Acme.open_critical; Acme.dismissed_high]
            H1 H2 eq_refl _ eq_refl eq_refl H3).
  simpl. lia.
Defined.

(** The counts [getDependencyAlerts] returns never exceed the alerts it
    read, whose number is the total the server declared. *)
Theorem getDependencyAlerts_bounded (w : World) (fuel : nat)
    (owner name : string) (critical high : nat) :
  getDependencyAlerts w fuel owner name = Ok (critical, high) ->
  exists (total : json) (alerts : list json),
    alert_pages w fuel owner name JNull [] = Ok (total, alerts) /\
    eq_int (Z.of_nat (length alerts)) total = true /\
    (critical + high <= length alerts)%nat /\
    (forall t : Z, total = JNum t -> (Z.of_nat (critical + high) <= t)%Z).
Proof.
  unfold getDependencyAlerts. intros H.
  apply bind_Ok in H as ([total alerts] & Hp & H).
  exists total, alerts. split; [done|]. unfold check_and_count in H.
  destruct (eq_int _ total) eqn:He; [|done]. cbn [negb] in H.
  split; [done|].
  apply count_alerts_le in H. split; [done|].
  intros t ->. cbn [eq_int] in He. apply Z.eqb_eq in He. lia.
Qed.

Lemma getDependencyAlerts_bounded_witness :
  getDependencyAlerts Acme.world 2 "acme" "A" = Ok (1, 0)%nat /\
  exists (total : json) (alerts : list json),
    alert_pages Acme.world 2 "acme" "A" JNull [] = Ok (total, alerts) /\
    eq_int (Z.of_nat (length alerts)) total = true /\
    (1 + 0 <= length alerts)%nat /\
    (forall t : Z, total = JNum t -> (Z.of_nat (1 + 0) <= t)%Z).
Proof.
  split; [reflexivity|].
  exact (getDependencyAlerts_bounded Acme.world 2 "acme" "A" 1 0 eq_refl).
Defined.

Lemma alert_pages_endless (w : World) (owner name : string)
    (served : json -> Prop) :
  (forall c : json, served c ->
     exists (p : AlertPage) (c' : json),
       read_alert_page w owner name c = Ok p /\ page_next p = Some c' /\ served c') ->
  forall (fuel : nat) (c : json) (acc : list json),
    served c -> alert_pages w fuel owner name c acc = OutOfFuel.
Proof.
  intros Hserved. induction fuel as [|fuel IH]; intros c acc Hc; [done|].
  destruct (Hserved c Hc) as (p & c' & Hp & Hn & Hc').
  rewrite alert_pages_step, Hp. cbn [mbind result_bind]. rewrite Hn.
  by apply IH.
Qed.

(** The loop over the pages of alerts has no bound of its own: against a
    server on which every page reached from the first one announces a next
    page, [getDependencyAlerts] returns nothing and raises nothing, whatever
    the fuel. *)
Theorem getDependencyAlerts_endless (w : World) (owner name : string)
    (served : json -> Prop) :
  served JNull ->
  (forall c : json, served c ->
     exists (p : AlertPage) (c' : json),
       read_alert_page w owner name c = Ok p /\ page_next p = Some c' /\ served c') ->
  forall fuel : nat, getDependencyAlerts w fuel owner name = OutOfFuel.
Proof.
  intros H0 Hserved fuel. unfold getDependencyAlerts.
  by rewrite (alert_pages_endless _ _ _ served Hserved).
Qed.

Lemma getDependencyAlerts_endless_witness :
  read_alert_page Faulty.endless_alerts "acme" "A" JNull =
    Ok (mkAlertPage (JNum 1) [alert_node Acme.open_high] (Some (JStr "bmV4dA=="))) /\
  getDependencyAlerts Faulty.endless_alerts 50 "acme" "A" = OutOfFuel.
Proof.
  split; [reflexivity|].
  apply (getDependencyAlerts_endless Faulty.endless_alerts "acme" "A" (fun _ => True)).
  - exact I.
  - intros c _.
    exists (mkAlertPage (JNum 1) [alert_node Acme.open_high] (Some (JStr "bmV4dA=="))),
           (JStr "bmV4dA==").
    split; [reflexivity|]. split; [reflexivity|exact I].
Defined.

(** When the alert query answers 200 with [data.repository] equal to
    [null], as for a repository that cannot be read, [getDependencyAlerts]
    raises [TypeError]. *)
Theorem getDependencyAlerts_null_repository (w : World) (owner name : string)
    (fuel : nat) (m d : gmap string json) :
  status_code (post_graphql w query (mkVariables owner name JNull)) = 200 ->
  body (post_graphql w query (mkVariables owner name JNull)) = Some (JObj m) ->
  m !! "data"%string = Some (JObj d) ->
  d !! "repository"%string = Some JNull ->
  getDependencyAlerts w (S fuel) owner name = Raised TypeError.
Proof.
  intros Hs Hb Hm Hd. unfold getDependencyAlerts. cbn [alert_pages].
  unfold run_query, request_json. rewrite Hs, Hb.
  cbn [Z.eqb Pos.eqb mbind result_bind getitem]. rewrite Hm.
  cbn [mbind result_bind getitem]. by rewrite Hd.
Qed.

Lemma getDependencyAlerts_null_repository_witness :
  status_code (post_graphql Faulty.null_repository query (mkVariables "acme" "A" JNull)) = 200 /\
  getDependencyAlerts Faulty.null_repository 1 "acme" "A" = Raised TypeError.
Proof.
  split; [reflexivity|].
  eapply (getDependencyAlerts_null_repository Faulty.null_repository "acme" "A" 0);
    reflexivity.
Defined.

(** ** The Repository Lister, further *)

Lemma repo_records_Ok (w : World) (fuel : nat) (items : list json)
    (records : list RepoRecord) :
  repo_records w fuel items [] = Ok records <->
  Forall2 (fun item r => repo_record w fuel item = Ok r) items records.
Proof.
  revert records. induction items as [|item items IH]; intros records.
  - cbn. split.
    + intros [= <-]. constructor.
    + intros H. by apply Forall2_nil_inv_l in H as ->.
  - cbn [repo_records]. rewrite bind_Ok. split.
    + intros (r & Hr & H). rewrite repo_records_app in H.
      apply bind_Ok in H as (rs & Hrs & [= <-]).
      constructor; [done|]. by apply IH.
    + intros H. apply Forall2_cons_inv_l in H as (r & rs & Hr & Hrs & ->).
      exists r. split; [done|]. rewrite repo_records_app.
      apply IH in Hrs. by rewrite Hrs.
Qed.

Lemma repo_record_name (w : World) (fuel : nat) (item : json) (r : RepoRecord) :
  repo_record w fuel item = Ok r -> getitem item "name" = Ok (JStr (item0 r)).
Proof.
  unfold repo_record. intros H.
  apply bind_Ok in H as (n & Hn & H).
  apply bind_Ok in H as (repo & Hrepo & H).
  destruct n; try done. injection Hrepo as ->.
  apply bind_Ok in H as ([[d e] a] & _ & H).
  apply bind_Ok in H as ([c h] & _ & H).
  by injection H as <-.
Qed.

(** A page of the repository list that is processed gives one record per
    entry of its body, in the order of the entries, each with the name of
    its entry, and the [next] link of the response. *)
Theorem read_repo_page_records (w : World) (fuel : nat) (url : string)
    (records : list RepoRecord) (next : option string) :
  read_repo_page w fuel url = Ok (Page records next) ->
  exists (c : json) (items : list json),
    content (rest_call w url) = Some c /\
    py_iter c = Ok items /\
    length records = length items /\
    Forall2 (fun item r => getitem item "name" = Ok (JStr (item0 r))) items records /\
    next = links_next (rest_call w url).
Proof.
  unfold read_repo_page, json_loads. intros H.
  destruct (content (rest_call w url)) as [c|] eqn:Hc; [|done].
  cbn [mbind result_bind] in H.
  apply bind_Ok in H as (limited & _ & H). destruct limited; [done|].
  apply bind_Ok in H as (missing & _ & H). destruct missing; [done|].
  apply bind_Ok in H as (items & Hi & H).
  apply bind_Ok in H as (rs & Hrs & [= <- <-]).
  exists c, items. apply repo_records_Ok in Hrs.
  split; [done|]. split; [done|]. split; [by apply Forall2_length in Hrs|].
  split; [|done].
  eapply Forall2_impl; [exact Hrs|]. intros item r. apply repo_record_name.
Qed.

Lemma read_repo_page_records_witness :
  read_repo_page Acme.world 2 (repos_url Acme.world) =
    Ok (Page [Acme.record_A; Acme.record_B] (Some Acme.page2_url)) /\
  exists (c : json) (items : list json),
    content (rest_call Acme.world (repos_url Acme.world)) = Some c /\
    py_iter c = Ok items /\
    length [Acme.record_A; Acme.record_B] = length items /\
    Forall2 (fun item r => getitem item "name" = Ok (JStr (item0 r))) items
      [Acme.record_A; Acme.record_B] /\
    Some Acme.page2_url = links_next (rest_call Acme.world (repos_url Acme.world)).
Proof.
  split; [reflexivity|].
  exact (read_repo_page_records Acme.world 2 (repos_url Acme.world) _ _ eq_refl).
Defined.

(** When the pages of the repository list follow one another by their
    [next] links up to a page without one, [list_repos] (with fuel for
    these pages) returns the records of all pages, in the order of the
    pages. *)
Theorem list_repos_complete (w : World) (fuel n : nat)
    (pages : list (list RepoRecord)) (url : string) (last : list RepoRecord) :
  repo_chain w fuel (repos_url w) pages url ->
  read_repo_page w fuel url = Ok (Page last None) ->
  (length pages < n)%nat ->
  list_repos w n fuel = Ok (concat (pages ++ [last])).
Proof.
  intros Hch Hl Hn. unfold list_repos.
  replace n with (length pages + S (n - S (length pages)))%nat by lia.
  rewrite (repo_pages_chain _ _ _ _ _ Hch), repo_pages_step, Hl.
  cbn [mbind result_bind].
  by rewrite concat_app, concat_cons, concat_nil, app_nil_r.
Qed.

Lemma list_repos_complete_witness :
  repo_chain Acme.world 2 (repos_url Acme.world)
    [[Acme.record_A; Acme.record_B]] Acme.page2_url /\
  read_repo_page Acme.world 2 Acme.page2_url = Ok (Page [Acme.record_C] None) /\
  list_repos Acme.world 2 2 = Ok [Acme.record_A; Acme.record_B; Acme.record_C].
Proof.
  assert (H1 : repo_chain Acme.world 2 (repos_url Acme.world)
                 [[Acme.record_A; Acme.record_B]] Acme.page2_url).
  { eapply repo_chain_cons; [reflexivity|apply repo_chain_nil]. }
  assert (H2 : read_repo_page Acme.world 2 Acme.page2_url =
               Ok (Page [Acme.record_C] None)) by reflexivity.
  split; [exact H1|]. split; [exact H2|].
  apply (list_repos_complete Acme.world 2 2 _ _ _ H1 H2). simpl. lia.
Defined.

Lemma message_checks_list (l : list json) (s p : string) :
  JStr "message" ∉ l ->
  message_startswith (JArr l) p = Ok false /\ message_is (JArr l) s = Ok false.
Proof.
  intros Hl. unfold message_startswith, message_is, py_and. cbn [py_in].
  assert (existsb (fun v => eq_str v "message") l = false) as ->; [|done].
  destruct (existsb _ l) eqn:Hex; [|done].
  apply existsb_exists in Hex as (v & Hv & Heq). destruct Hl.
  destruct v; try done. cbn in Heq. apply String.eqb_eq in Heq as ->.
  by apply list_elem_of_In.
Qed.

Lemma repo_records_raise (w : World) (fuel : nat) (items1 items2 : list json)
    (item : json) (e : exn) (repos : list RepoRecord) :
  Forall (fun i => exists r : RepoRecord, repo_record w fuel i = Ok r) items1 ->
  repo_record w fuel item = Raised e ->
  repo_records w fuel (items1 ++ item :: items2) repos = Raised e.
Proof.
  intros H1 He. revert repos.
  induction H1 as [|i items1 [r Hr] _ IH]; intros repos.
  - cbn [app repo_records]. by rewrite He.
  - cbn [app repo_records]. rewrite Hr. cbn [mbind result_bind]. apply IH.
Qed.

(** One repository that fails makes the whole listing fail.  When an entry
    of a page raises an exception, the entries before it on the page having
    been processed, [list_repos] raises that exception: the records of the
    earlier entries and of the earlier pages are lost. *)
Theorem list_repos_fails_fast (w : World) (fuel n : nat)
    (pages : list (list RepoRecord)) (url : string)
    (items1 items2 : list json) (item : json) (e : exn) :
  repo_chain w fuel (repos_url w) pages url ->
  content (rest_call w url) = Some (JArr (items1 ++ item :: items2)) ->
  JStr "message" ∉ items1 ++ item :: items2 ->
  Forall (fun i => exists r : RepoRecord, repo_record w fuel i = Ok r) items1 ->
  repo_record w fuel item = Raised e ->
  (length pages < n)%nat ->
  list_repos w n fuel = Raised e.
Proof.
  intros Hch Hc Hmsg H1 He Hn. unfold list_repos.
  replace n with (length pages + S (n - S (length pages)))%nat by lia.
  rewrite (repo_pages_chain _ _ _ _ _ Hch). cbn [repo_pages].
  unfold json_loads. rewrite Hc. cbn [mbind result_bind].
  destruct (message_checks_list _ "Not Found" "API rate limit exceeded" Hmsg)
    as [-> ->].
  cbn [mbind result_bind py_iter].
  by rewrite (repo_records_raise _ _ _ _ _ _ _ H1 He).
Qed.

Lemma list_repos_fails_fast_witness :
  content (rest_call Faulty.broken_repo (repos_url Faulty.broken_repo)) =
    Some (JArr ([Acme.obj [("name"%string, JStr "A")]] ++
                Acme.obj [("name"%string, JStr "D")] ::
                [Acme.obj [("name"%string, JStr "B")]])) /\
  repo_record Faulty.broken_repo 2 (Acme.obj [("name"%string, JStr "A")]) = Ok Acme.record_A /\
  repo_record Faulty.broken_repo 2 (Acme.obj [("name"%string, JStr "D")]) = Raised IndexError /\
  list_repos Faulty.broken_repo 1 2 = Raised IndexError.
Proof.
  split; [reflexivity|]. split; [reflexivity|]. split; [reflexivity|].
  apply (list_repos_fails_fast Faulty.broken_repo 2 1 [] (repos_url Faulty.broken_repo)
           [Acme.obj [("name"%string, JStr "A")]]
           [Acme.obj [("name"%string, JStr "B")]]
           (Acme.obj [("name"%string, JStr "D")]) IndexError).
  - apply repo_chain_nil.
  - reflexivity.
  - intros H. repeat (apply elem_of_cons in H as [H|H]; [discriminate|]).
    by apply elem_of_nil in H.
  - constructor; [|constructor]. exists Acme.record_A. reflexivity.
  - reflexivity.
  - simpl. lia.
Defined.

Lemma message_checks_object (m : gmap string json) :
  no_stop_message m ->
  message_startswith (JObj m) "API rate limit exceeded" = Ok false /\
  message_is (JObj m) "Not Found" = Ok false.
Proof.
  unfold message_startswith, message_is, py_and. cbn [py_in getitem].
  intros [Hm|(s & Hm & Hs & Hne)]; rewrite Hm.
  - rewrite bool_decide_eq_false_2 by (by intros [? ?]). done.
  - rewrite bool_decide_eq_true_2 by eauto.
    cbn [mbind result_bind py_startswith eq_str]. rewrite Hs.
    by destruct (String.eqb_spec s "Not Found").
Qed.

Lemma repo_record_str (w : World) (fuel : nat) (k : string) :
  repo_record w fuel (JStr k) = Raised TypeError.
Proof. reflexivity. Qed.

(** Only the two known messages stop the listing.  A page whose body is any
    other non-empty object (an error such as "Bad credentials", for
    instance) is iterated over like a list of entries: its keys are strings,
    and [list_repos] raises [TypeError] on the first one. *)
Theorem list_repos_other_object (w : World) (fuel n : nat)
    (pages : list (list RepoRecord)) (url : string) (m : gmap string json) :
  repo_chain w fuel (repos_url w) pages url ->
  content (rest_call w url) = Some (JObj m) ->
  m <> ∅ ->
  no_stop_message m ->
  (length pages < n)%nat ->
  list_repos w n fuel = Raised TypeError.
Proof.
  intros Hch Hc Hne Hmsg Hn. unfold list_repos.
  replace n with (length pages + S (n - S (length pages)))%nat by lia.
  rewrite (repo_pages_chain _ _ _ _ _ Hch). cbn [repo_pages].
  unfold json_loads. rewrite Hc. cbn [mbind result_bind].
  destruct (message_checks_object m Hmsg) as [-> ->].
  cbn [mbind result_bind py_iter].
  destruct (map_to_list m) as [|[k v] l] eqn:Hl.
  { by apply map_to_list_empty_iff in Hl. }
  cbn [fmap list_fmap fst repo_records]. by rewrite repo_record_str.
Qed.

Lemma list_repos_other_object_witness :
  content (rest_call Faulty.bad_credentials (repos_url Faulty.bad_credentials)) =
    Some Faulty.bad_credentials_body /\
  list_repos Faulty.bad_credentials 1 2 = Raised TypeError.
Proof.
  split; [reflexivity|].
  eapply (list_repos_other_object Faulty.bad_credentials 2 1 []
            (repos_url Faulty.bad_credentials)).
  - apply repo_chain_nil.
  - reflexivity.
  - intros H. apply (f_equal (fun m : gmap string json => m !! "message"%string)) in H.
    vm_compute in H. discriminate.
  - right. exists "Bad credentials"%string.
    split; [reflexivity|]. split; [reflexivity|discriminate].
  - simpl. lia.
Defined.

Lemma repo_pages_endless (w : World) (fuel : nat) (reached : string -> Prop) :
  (forall url : string, reached url ->
     exists (records : list RepoRecord) (next : string),
       read_repo_page w fuel url = Ok (Page records (Some next)) /\ reached next) ->
  forall (n : nat) (url : string) (repos : list RepoRecord),
    reached url -> repo_pages w n fuel url repos = OutOfFuel.
Proof.
  intros Hreached. induction n as [|n IH]; intros url repos Hurl; [done|].
  destruct (Hreached url Hurl) as (records & next & Hp & Hnext).
  rewrite repo_pages_step, Hp. cbn [mbind result_bind]. by apply IH.
Qed.

(** The loop over the pages of the repository list follows [next] links
    without remembering where it has been: when every page reached from the
    first one is processed and has a [next] link (a link that leads back to
    an earlier page, for instance), [list_repos] returns nothing and raises
    nothing, whatever the fuel. *)
Theorem list_repos_endless (w : World) (fuel : nat) (reached : string -> Prop) :
  reached (repos_url w) ->
  (forall url : string, reached url ->
     exists (records : list RepoRecord) (next : string),
       read_repo_page w fuel url = Ok (Page records (Some next)) /\ reached next) ->
  forall n : nat, list_repos w n fuel = OutOfFuel.
Proof.
  intros H0 Hreached n. unfold list_repos.
  by apply (repo_pages_endless _ _ reached).
Qed.

Lemma list_repos_endless_witness :
  read_repo_page Faulty.link_cycle 1 (repos_url Faulty.link_cycle) =
    Ok (Page [Acme.record_B] (Some (repos_url Faulty.link_cycle))) /\
  list_repos Faulty.link_cycle 40 1 = OutOfFuel.
Proof.
  split; [reflexivity|].
  apply (list_repos_endless Faulty.link_cycle 1
           (fun url => url = repos_url Faulty.link_cycle)).
  - reflexivity.
  - intros url ->. exists [Acme.record_B], (repos_url Faulty.link_cycle).
    split; reflexivity.
Defined.

(** ** The Report Driver, further *)

Lemma insert_desc_filter (r : RepoRecord) (l l' : list RepoRecord) (s : string) :
  insert_desc r l = Ok l' ->
  filter (fun x => date_is x s) l' = filter (fun x => date_is x s) (r :: l).
Proof.
  revert l'. induction l as [|x l IH]; intros l'.
  { by intros [= <-]. }
  cbn [insert_desc]. intros H.
  apply bind_Ok in H as (lt & Hlt & H). destruct lt; [|by injection H as <-].
  apply bind_Ok in H as (l'' & Hl'' & [= <-]).
  rewrite (filter_cons _ x l''), (IH _ Hl''), !filter_cons.
  destruct (decide (date_is r s)) as [Hr|Hr]; [|done].
  destruct (decide (date_is x s)) as [Hx|Hx]; [|done].
  unfold date_is in Hr, Hx. rewrite Hr, Hx in Hlt. cbn in Hlt.
  injection Hlt as Hlt. pose proof (ltb_true_ge s s Hlt). congruence.
Qed.

Lemma sorted_desc_filter (l l' : list RepoRecord) (s : string) :
  sorted_desc l = Ok l' ->
  filter (fun x => date_is x s) l' = filter (fun x => date_is x s) l.
Proof.
  revert l'. induction l as [|r l IH]; intros l'.
  { by intros [= <-]. }
  cbn [sorted_desc]. intros H. apply bind_Ok in H as (l0 & Hl0 & H).
  rewrite (insert_desc_filter _ _ _ s H), !filter_cons, (IH _ Hl0). done.
Qed.

(** The sort of the report is stable: records with the same commit date
    stand in the report in the order in which [list_repos] returned them. *)
Theorem main_sort_stable (w : World) (pages fuel : nat)
    (rs : list RepoRecord) (auth : auth_message) :
  get_auth_status w = Ok auth ->
  list_repos w pages fuel = Ok rs ->
  Forall (fun r => exists s : string, date_is r s) rs ->
  exists out : list RepoRecord,
    main w pages fuel = Ok out /\
    forall s : string,
      filter (fun r => date_is r s) out = filter (fun r => date_is r s) rs.
Proof.
  intros Ha Hr Hs. rewrite (main_sorted _ _ _ _ _ Ha Hr).
  destruct (sorted_desc_sorted rs Hs) as (out & Hout & _).
  exists out. split; [done|]. intros s. by apply sorted_desc_filter.
Qed.

Lemma main_sort_stable_witness :
  get_auth_status Faulty.twins = Ok NotAuthenticated /\
  list_repos Faulty.twins 1 2 = Ok [Faulty.record_T1; Acme.record_A; Faulty.record_T2] /\
  main Faulty.twins 1 2 = Ok [Faulty.record_T1; Faulty.record_T2; Acme.record_A] /\
  exists out : list RepoRecord,
    main Faulty.twins 1 2 = Ok out /\
    forall s : string,
      filter (fun r => date_is r s) out =
      filter (fun r => date_is r s) [Faulty.record_T1; Acme.record_A; Faulty.record_T2].
Proof.
  split; [reflexivity|]. split; [reflexivity|]. split; [reflexivity|].
  apply (main_sort_stable Faulty.twins 1 2 _ NotAuthenticated eq_refl eq_refl).
  repeat constructor; eexists; reflexivity.
Defined.
